(** * Verification of preferredsDailyUpdate.py: the FIGI check-digit
    validator and the Bloomberg data-file parser ([BbgDataFile]). *)

From Stdlib Require Import String Ascii List ZArith Lia Bool.
Import ListNotations.
Local Open Scope Z_scope.
Local Open Scope list_scope.

(** ** Python runtime fragment *)

Module Py.

(** Python [str] values over ASCII, as lists of characters. *)
Definition pystr := list ascii.

Definition lit (s : string) : pystr := list_ascii_of_string s.

#[local] Set Warnings "-register-all".

(** Python values that appear in the code's [+] on mixed operands. *)
Inductive pyval :=
| PStr (s : pystr)
| PList (l : list pyval).

(** Exceptions raised by the code or by the Python runtime. *)
Inductive exn :=
| KeyError
| IndexError
| ValueError
| TypeError
| PyException (arg : pyval).

Inductive res (A : Type) :=
| Ok (a : A)
| Err (e : exn).
Arguments Ok {A} a.
Arguments Err {A} e.

Definition bind {A B} (m : res A) (f : A -> res B) : res B :=
  match m with Ok a => f a | Err e => Err e end.

Notation "x <- m ;; f" := (bind m (fun x => f))
  (at level 61, m at next level, right associativity).

(** Evaluation of [f(x) for x in l] left to right; the first exception wins. *)
Fixpoint mapM {A B} (f : A -> res B) (l : list A) : res (list B) :=
  match l with
  | [] => Ok []
  | x :: l' => y <- f x ;; ys <- mapM f l' ;; Ok (y :: ys)
  end.

Definition ascii_eqb (a b : ascii) : bool := if ascii_dec a b then true else false.

Definition str_eqb (a b : pystr) : bool :=
  if list_eq_dec ascii_dec a b then true else false.

(** [str.isdigit], [str.isupper], [str.isalpha], [str.isalnum], [str.isspace]
    on one ASCII character. *)
Definition is_digit (c : ascii) : bool :=
  let n := nat_of_ascii c in (48 <=? n)%nat && (n <=? 57)%nat.
Definition is_upper (c : ascii) : bool :=
  let n := nat_of_ascii c in (65 <=? n)%nat && (n <=? 90)%nat.
Definition is_lower (c : ascii) : bool :=
  let n := nat_of_ascii c in (97 <=? n)%nat && (n <=? 122)%nat.
Definition is_alpha (c : ascii) : bool := is_upper c || is_lower c.
Definition is_alnum (c : ascii) : bool := is_alpha c || is_digit c.
Definition is_space (c : ascii) : bool :=
  let n := nat_of_ascii c in
  (n =? 32)%nat || ((9 <=? n)%nat && (n <=? 13)%nat)
  || ((28 <=? n)%nat && (n <=? 31)%nat).

(** [s.isalnum()]: false on the empty string. *)
Definition str_isalnum (s : pystr) : bool :=
  match s with [] => false | _ => forallb is_alnum s end.

(** [s.strip()] *)
Fixpoint lstrip (s : pystr) : pystr :=
  match s with
  | c :: s' => if is_space c then lstrip s' else s
  | [] => []
  end.
Definition strip (s : pystr) : pystr := rev (lstrip (rev (lstrip s))).

(** [s.split(sep)] *)
Fixpoint split_aux (sep : ascii) (s cur : pystr) : list pystr :=
  match s with
  | [] => [rev cur]
  | c :: s' =>
      if ascii_dec c sep then rev cur :: split_aux sep s' []
      else split_aux sep s' (c :: cur)
  end.
Definition split (sep : ascii) (s : pystr) : list pystr := split_aux sep s [].

(** [sub in s] for strings *)
Fixpoint is_prefix (p s : pystr) : bool :=
  match p, s with
  | [], _ => true
  | _ :: _, [] => false
  | a :: p', b :: s' => if ascii_dec a b then is_prefix p' s' else false
  end.
Fixpoint contains (sub s : pystr) : bool :=
  is_prefix sub s || match s with [] => false | _ :: s' => contains sub s' end.

(** [l[i]] with Python's negative indices; [IndexError] out of range. *)
Definition index {A} (l : list A) (i : Z) : res A :=
  let j := if i <? 0 then i + Z.of_nat (length l) else i in
  if (j <? 0) || (Z.of_nat (length l) <=? j) then Err IndexError
  else match nth_error l (Z.to_nat j) with
       | Some x => Ok x
       | None => Err IndexError
       end.

(** [l[i:j]] with Python's normalisation of slice bounds. *)
Definition slice_bound (i : Z) (n : nat) : nat :=
  if i <? 0 then Z.to_nat (Z.max 0 (i + Z.of_nat n)) else Nat.min (Z.to_nat i) n.
Definition slice {A} (i j : Z) (l : list A) : list A :=
  let a := slice_bound i (length l) in
  let b := slice_bound j (length l) in
  firstn (b - a) (skipn a l).

(** Decimal digits of a non-negative number, most significant first. *)
Definition digit_char (d : Z) : ascii := ascii_of_nat (48 + Z.to_nat d).
Fixpoint str_nat_aux (fuel : nat) (n : Z) (acc : pystr) : pystr :=
  match fuel with
  | O => acc
  | S f =>
      let acc' := digit_char (n mod 10) :: acc in
      if n <? 10 then acc' else str_nat_aux f (n / 10) acc'
  end.

(** [str(x)] for an [int] *)
Definition str_int (x : Z) : pystr :=
  if x <? 0 then "-"%char :: str_nat_aux (S (Z.to_nat (- x))) (- x) []
  else str_nat_aux (S (Z.to_nat x)) x [].

(** [int(s)] for a [str]: surrounding whitespace, an optional sign, and ASCII
    digits with single underscores between digits. *)
Fixpoint int_digits (s : pystr) (acc : Z) (after_digit : bool) : option Z :=
  match s with
  | [] => if after_digit then Some acc else None
  | c :: s' =>
      if is_digit c then
        int_digits s' (acc * 10 + (Z.of_nat (nat_of_ascii c) - 48)) true
      else if ascii_eqb c "_" && after_digit then int_digits s' acc false
      else None
  end.
Definition int_of_str (s : pystr) : res Z :=
  let t := strip s in
  let r := match t with
           | c :: t' =>
               if ascii_dec c "-" then option_map Z.opp (int_digits t' 0 false)
               else if ascii_dec c "+" then int_digits t' 0 false
               else int_digits t 0 false
           | [] => None
           end in
  match r with Some z => Ok z | None => Err ValueError end.

(** [a + b] on [str] and [list] operands *)
Definition add (a b : pyval) : res pyval :=
  match a, b with
  | PStr x, PStr y => Ok (PStr (x ++ y))
  | PList x, PList y => Ok (PList (x ++ y))
  | _, _ => Err TypeError
  end.

(** A [dict] as an association list in insertion order. *)
Fixpoint dict_get {K V} (eqb : K -> K -> bool) (k : K) (d : list (K * V)) : res V :=
  match d with
  | [] => Err KeyError
  | (k', v) :: d' => if eqb k k' then Ok v else dict_get eqb k d'
  end.
Fixpoint dict_set {K V} (eqb : K -> K -> bool) (k : K) (v : V)
    (d : list (K * V)) : list (K * V) :=
  match d with
  | [] => [(k, v)]
  | (k', v') :: d' =>
      if eqb k k' then (k', v) :: d' else (k', v') :: dict_set eqb k v d'
  end.
(** [dict(pairs)] *)
Definition dict_of {K V} (eqb : K -> K -> bool) (l : list (K * V)) : list (K * V) :=
  fold_left (fun d kv => dict_set eqb (fst kv) (snd kv) d) l [].

End Py.

Import Py.

(** ** The FIGI check digit (lines 18-46) *)

(** [figiAlphaNumMap = dict(zip([chr(v) for v in range(65,65+26)], range(10, 36)))] *)
Definition figiAlphaNumMap : list (ascii * Z) :=
  combine (map ascii_of_nat (seq 65 26)) (map Z.of_nat (seq 10 26)).

(** [digitSum(x) = sum(map(int, str(x)))] *)
Definition digitSum (x : Z) : res Z :=
  ds <- mapM (fun c => int_of_str [c]) (str_int x) ;;
  Ok (fold_right Z.add 0 ds).

(** [checkFIGIDigit(figi)] *)
Definition checkFIGIDigit (figi : pystr) : res bool :=
  if negb (length figi =? 12)%nat then Ok false
  else if negb (str_isalnum figi) then Ok false
  else
    checkDigit <- index figi (Z.of_nat (length figi) - 1) ;;
    let figi11 := if (length figi =? 12)%nat
                  then slice 0 (-1) figi else figi in
    xx <- mapM (fun ch => if is_alpha ch then dict_get ascii_eqb ch figiAlphaNumMap
                          else int_of_str [ch]) figi11 ;;
    let yy := map (fun ix => if Nat.odd (fst ix) then snd ix * 2 else snd ix)
                  (combine (seq 0 (length xx)) xx) in
    ds <- mapM digitSum yy ;;
    let zz := fold_right Z.add 0 ds in
    let tmp := (10 - zz) mod 10 in
    Ok (str_eqb (str_int tmp) [checkDigit]).



(** ** The Bloomberg data-file parser (lines 60-176) *)

(** A data row: [dict(zip(fields, datarow))]. *)
Definition row := list (pystr * pystr).

(** The local variables of [parseFileText] across loop iterations, together
    with the lines printed to standard output. *)
Record pstate := {
  st_state : Z;
  st_fields : list pystr;
  st_fieldsLoc : list (pystr * Z);
  st_dataList : list row;
  st_dataDict : list (pystr * row);
  st_out : list pystr
}.

Definition init_state : pstate :=
  {| st_state := -1; st_fields := []; st_fieldsLoc := []; st_dataList := [];
     st_dataDict := []; st_out := [] |}.

Definition set_state (z : Z) (st : pstate) : pstate :=
  {| st_state := z; st_fields := st_fields st; st_fieldsLoc := st_fieldsLoc st;
     st_dataList := st_dataList st; st_dataDict := st_dataDict st;
     st_out := st_out st |}.

Definition print (msg : pystr) (st : pstate) : pstate :=
  {| st_state := st_state st; st_fields := st_fields st;
     st_fieldsLoc := st_fieldsLoc st; st_dataList := st_dataList st;
     st_dataDict := st_dataDict st; st_out := st_out st ++ [msg] |}.

Definition START_OF_FILE := lit "START-OF-FILE".
Definition START_OF_FIELDS := lit "START-OF-FIELDS".
Definition END_OF_FIELDS := lit "END-OF-FIELDS".
Definition START_OF_DATA := lit "START-OF-DATA".
Definition END_OF_DATA := lit "END-OF-DATA".
Definition DATARECORD := lit "DATARECORD".

Definition msg_row_count := lit "WARNING: Not all data rows loaded successfully from bbg file".
Definition msg_figi_invalid := lit "FIGI check digit invalid, skipping line for ID_BB_GLOBAL: ".
Definition msg_insufficient := lit "Insufficient values found in row".
Definition msg_no_start := lit "File Structure Invalid. Could not find START-OF-FILE".
Definition msg_not_graceful := lit "File Structure Invalid. File does not end gracefully".

(** [data = line.split('|')[3:]; datarow = data[0:(len(data)-1)]] *)
Definition candidate (line : pystr) : list pystr :=
  let data := skipn 3 (split "|" line) in
  slice 0 (Z.of_nat (length data) - 1) data.

(** The data-row branch of state 2 (lines 156-168). *)
Definition data_line (st : pstate) (line : pystr) : res pstate :=
  let datarow := candidate line in
  if negb (length datarow =? length (st_fields st))%nat then
    Err (PyException (PStr msg_insufficient))
  else
    figi <- index datarow (-1) ;;
    checkDigitValid <- checkFIGIDigit figi ;;
    if negb checkDigitValid then Ok (print (msg_figi_invalid ++ figi) st)
    else
      let r := dict_of str_eqb (combine (st_fields st) datarow) in
      Ok {| st_state := st_state st; st_fields := st_fields st;
            st_fieldsLoc := st_fieldsLoc st;
            st_dataList := st_dataList st ++ [r];
            st_dataDict := dict_set str_eqb figi r (st_dataDict st);
            st_out := st_out st |}.

(** One iteration of [for line in lines:] (lines 117-168). *)
Definition step (st : pstate) (raw : pystr) : res pstate :=
  let line := strip raw in
  if (st_state st =? -1) && str_eqb line START_OF_FILE then Ok (set_state 0 st)
  else if st_state st =? 0 then
    if str_eqb line START_OF_FIELDS then Ok (set_state 1 st)
    else if str_eqb line START_OF_DATA then Ok (set_state 2 st)
    else if contains DATARECORD line then
      s1 <- index (split "=" line) 1 ;;
      nrow <- int_of_str s1 ;;
      if negb (nrow =? Z.of_nat (length (st_dataList st))) then Ok (print msg_row_count st)
      else Ok st
    else Ok st
  else if st_state st =? 1 then
    if str_eqb line END_OF_FIELDS then
      let fs := st_fields st in
      Ok {| st_state := 0; st_fields := fs;
            st_fieldsLoc := dict_of str_eqb (combine fs (map Z.of_nat (seq 0 (length fs))));
            st_dataList := st_dataList st; st_dataDict := st_dataDict st;
            st_out := st_out st |}
    else
      Ok {| st_state := st_state st; st_fields := st_fields st ++ [line];
            st_fieldsLoc := st_fieldsLoc st; st_dataList := st_dataList st;
            st_dataDict := st_dataDict st; st_out := st_out st |}
  else if st_state st =? 2 then
    if str_eqb line END_OF_DATA then Ok (set_state 0 st)
    else data_line st line
  else Ok st.

Fixpoint run (st : pstate) (lines : list pystr) : res pstate :=
  match lines with
  | [] => Ok st
  | l :: ls => st' <- step st l ;; run st' ls
  end.

(** The loop and the final structure checks (lines 170-176); the result keeps
    what was printed. *)
Definition parseRun (lines : list pystr) : res pstate :=
  st <- run init_state lines ;;
  if st_state st =? -1 then Err (PyException (PStr msg_no_start))
  else if negb (st_state st =? 0) then Err (PyException (PStr msg_not_graceful))
  else Ok st.

(** [parseFileText(lines)] returns [(fields, dataList)]. *)
Definition parseFileText (lines : list pystr) : res (list pystr * list row) :=
  st <- parseRun lines ;; Ok (st_fields st, st_dataList st).

(** ** The [BbgDataFile] object (lines 60-98) *)

Record BbgDataFile := {
  fields : list pystr;
  dataList : list row;
  nrows : nat
}.

(** [BbgDataFile(fname)], given the lines [readlines()] returns. *)
Definition BbgDataFile_init (lines : list pystr) : res BbgDataFile :=
  p <- parseFileText lines ;;
  Ok {| fields := fst p; dataList := snd p; nrows := length (snd p) |}.

Definition msg_unavailable :=
  lit "Data not available for following fields in bbg data file:".

(** [getDataForFields(columns)] *)
Definition getDataForFields (b : BbgDataFile) (columns : list pystr)
    : res (list (list pystr)) :=
  let goodFields := map (fun f => existsb (str_eqb f) (fields b)) columns in
  if negb (forallb (fun g => g) goodFields) then
    msg <- add (PStr msg_unavailable)
               (PList (map (fun cg => PStr (fst cg))
                         (filter (fun cg => negb (snd cg)) (combine columns goodFields)))) ;;
    Err (PyException msg)
  else
    mapM (fun r => mapM (fun k => dict_get str_eqb k r) columns) (dataList b).

(** ** The check-digit algorithm as the spec words it (section 4.1)

    A second definition of the check digit, written from the spec, to be
    compared with [checkFIGIDigit]. *)

(** Digits map to themselves, [A]..[Z] to 10..35. *)
Definition spec_value (c : ascii) : Z :=
  if is_digit c then Z.of_nat (nat_of_ascii c) - 48
  else Z.of_nat (nat_of_ascii c) - 55.

(** The sum of the decimal digits of a non-negative integer. *)
Fixpoint spec_dsum_fuel (fuel : nat) (n : Z) : Z :=
  match fuel with
  | O => 0
  | S f => if n <=? 0 then 0 else n mod 10 + spec_dsum_fuel f (n / 10)
  end.
Definition spec_digit_sum (n : Z) : Z := spec_dsum_fuel (S (Z.to_nat n)) n.

(** The grand total: values at odd positions are doubled, then every
    resulting integer contributes its digit sum. [dbl] is the parity of the
    current position. *)
Fixpoint spec_total (dbl : bool) (vs : list Z) : Z :=
  match vs with
  | [] => 0
  | v :: vs' => spec_digit_sum (if dbl then 2 * v else v) + spec_total (negb dbl) vs'
  end.

Definition spec_check_digit (body : pystr) : Z :=
  let T := spec_total false (map spec_value body) in
  (10 - T mod 10) mod 10.

(** The spec's identifier alphabet: decimal digits and upper-case letters. *)
Definition figi_char (c : ascii) : bool := is_digit c || is_upper c.

(** ** The input format (spec section 6)

    A well-formed file, before surrounding whitespace: the section markers,
    preamble lines, one line per field name, and one data line per row made
    of three metadata tokens and the row's values, each token followed by
    the pipe delimiter. *)

Definition no_pipe (t : pystr) : bool := negb (existsb (ascii_eqb "|") t).

(** [<t1>|<t2>|...|<tn>|] *)
Definition join_pipes (ts : list pystr) : pystr :=
  concat (map (fun t => t ++ ["|"%char]) ts).

(** A data row: its three metadata tokens and its values. *)
Definition row_text (mv : list pystr * list pystr) : pystr := join_pipes (fst mv ++ snd mv).

Definition bbg_file (pre flines : list pystr) (rows : list (list pystr * list pystr))
    : list pystr :=
  [START_OF_FILE] ++ pre ++ [START_OF_FIELDS] ++ flines ++ [END_OF_FIELDS; START_OF_DATA]
  ++ map row_text rows ++ [END_OF_DATA].

(** A preamble line is no section marker, and a line mentioning [DATARECORD]
    carries an integer after its first [=]. *)
Definition preamble_ok (l : pystr) : bool :=
  let line := strip l in
  negb (str_eqb line START_OF_FILE) && negb (str_eqb line START_OF_FIELDS)
  && negb (str_eqb line START_OF_DATA)
  && (negb (contains DATARECORD line)
      || match index (split "=" line) 1 with
         | Ok s => match int_of_str s with Ok _ => true | Err _ => false end
         | Err _ => false
         end).

(** A field-name line is not the closing marker. *)
Definition field_line_ok (l : pystr) : bool := negb (str_eqb (strip l) END_OF_FIELDS).

(** A data row has three metadata tokens, [nf] values, no token holding the
    delimiter, and its identifier (the last value) is one on which the
    validator does not raise. *)
Definition row_ok (nf : nat) (mv : list pystr * list pystr) : bool :=
  (length (fst mv) =? 3)%nat && forallb no_pipe (fst mv ++ snd mv)
  && (length (snd mv) =? nf)%nat
  && match snd mv with
     | [] => false
     | _ => match checkFIGIDigit (last (snd mv) []) with Ok _ => true | Err _ => false end
     end.

(** The identifier of a row passes the checksum. *)
Definition figi_valid (mv : list pystr * list pystr) : bool :=
  match checkFIGIDigit (last (snd mv) []) with Ok b => b | Err _ => false end.

(** The row [dict(zip(fields, datarow))] built from the values. *)
Definition mkrow (fs : list pystr) (vals : list pystr) : row := dict_of str_eqb (combine fs vals).

(** Two files agree up to whitespace around each line. *)
Definition same_trimmed (lines lines' : list pystr) : Prop :=
  Forall2 (fun a b => strip a = strip b) lines lines'.

(** ** Data cleaning and the database row preparation (lines 180-390) *)

Definition NULL := lit "NULL".
Definition NA := lit "N.A.".

(** [cleanVal(val)] *)
Definition cleanVal (val : pystr) : pystr :=
  let v := strip val in
  if str_eqb v [] || str_eqb v NA then NULL else v.

(** [datetime.strptime(s, '%Y%m%d')]. [_strptime] compiles the format to the
    regular expression
    [(?P<Y>\d\d\d\d)(?P<m>1[0-2]|0[1-9]|[1-9])(?P<d>3[01]|[12]\d|0[1-9]|[1-9]| [1-9])]
    and takes [re.match], the first match in the engine's backtracking
    order, with no end anchor; each group below lists its matches in that
    order, as (captured text, remaining input). *)
Definition in_range (c : ascii) (lo hi : nat) : bool :=
  (lo <=? nat_of_ascii c)%nat && (nat_of_ascii c <=? hi)%nat.

Definition re_Y (s : pystr) : list (pystr * pystr) :=
  match s with
  | a :: b :: c :: d :: r =>
      if is_digit a && is_digit b && is_digit c && is_digit d then [([a; b; c; d], r)] else []
  | _ => []
  end.

(** [1[0-2]|0[1-9]|[1-9]] *)
Definition re_m (s : pystr) : list (pystr * pystr) :=
  match s with
  | a :: b :: r => if ascii_eqb a "1" && in_range b 48 50 then [([a; b], r)] else []
  | _ => []
  end
  ++ match s with
     | a :: b :: r => if ascii_eqb a "0" && in_range b 49 57 then [([a; b], r)] else []
     | _ => []
     end
  ++ match s with
     | a :: r => if in_range a 49 57 then [([a], r)] else []
     | _ => []
     end.

(** [3[01]|[12]\d|0[1-9]|[1-9]| [1-9]] *)
Definition re_d (s : pystr) : list (pystr * pystr) :=
  match s with
  | a :: b :: r => if ascii_eqb a "3" && in_range b 48 49 then [([a; b], r)] else []
  | _ => []
  end
  ++ match s with
     | a :: b :: r => if in_range a 49 50 && is_digit b then [([a; b], r)] else []
     | _ => []
     end
  ++ match s with
     | a :: b :: r => if ascii_eqb a "0" && in_range b 49 57 then [([a; b], r)] else []
     | _ => []
     end
  ++ match s with
     | a :: r => if in_range a 49 57 then [([a], r)] else []
     | _ => []
     end
  ++ match s with
     | a :: b :: r => if ascii_eqb a " " && in_range b 49 57 then [([a; b], r)] else []
     | _ => []
     end.

Definition match_md (r1 : pystr) : list (pystr * pystr * pystr) :=
  flat_map (fun mr => map (fun dr => (fst mr, fst dr, snd dr)) (re_d (snd mr))) (re_m r1).

Definition match_Ymd (s : pystr) : option (pystr * pystr * pystr * pystr) :=
  head (flat_map (fun yr => map (fun mdr => (fst yr, fst (fst mdr), snd (fst mdr), snd mdr))
                                  (match_md (snd yr)))
                 (re_Y s)).

(** [datetime]'s calendar: [_is_leap], [_days_in_month], MINYEAR and MAXYEAR. *)
Definition is_leap (y : Z) : bool :=
  (y mod 4 =? 0) && (negb (y mod 100 =? 0) || (y mod 400 =? 0)).
Definition days_in_month (y m : Z) : Z :=
  if (m =? 2) then (if is_leap y then 29 else 28)
  else if (m =? 4) || (m =? 6) || (m =? 9) || (m =? 11) then 30 else 31.
Definition valid_date (y m d : Z) : bool :=
  (1 <=? y) && (y <=? 9999) && (1 <=? m) && (m <=? 12)
  && (1 <=? d) && (d <=? days_in_month y m).

(** [strptime]: no match or unconverted data raise [ValueError], and so
    does [datetime_date(year, month, day)] on a date outside the calendar. *)
Definition strptime_Ymd (s : pystr) : res (Z * Z * Z) :=
  match match_Ymd s with
  | None => Err ValueError
  | Some (ys, ms, ds, rest) =>
      match rest with
      | _ :: _ => Err ValueError
      | [] =>
          y <- int_of_str ys ;; m <- int_of_str ms ;; d <- int_of_str ds ;;
          if valid_date y m d then Ok (y, m, d) else Err ValueError
      end
  end.

(** [str(x)] left-padded with zeros to [n] characters. *)
Definition zpad (n : nat) (x : Z) : pystr :=
  repeat "0"%char (n - length (str_int x)) ++ str_int x.

(** [format(date, '%Y-%m-%d')], through glibc's [strftime]: [%Y] writes
    [str(year)] without padding, [%m] and [%d] two zero-padded digits. *)
Definition format_Ymd (y m d : Z) : pystr :=
  str_int y ++ ["-"%char] ++ zpad 2 m ++ ["-"%char] ++ zpad 2 d.

(** [cleanDate(dtstr)] *)
Definition cleanDate (dtstr : pystr) : res pystr :=
  let v := strip dtstr in
  if str_eqb v [] || str_eqb v NA then Ok NULL
  else ymd <- strptime_Ymd v ;;
       let '(y, m, d) := ymd in Ok (format_Ymd y m d).

(** [a < b] on [str]: lexicographic on character codes. *)
Fixpoint str_ltb (a b : pystr) : bool :=
  match a, b with
  | _, [] => false
  | [], _ :: _ => true
  | x :: a', y :: b' =>
      if (nat_of_ascii x <? nat_of_ascii y)%nat then true
      else if ascii_eqb x y then str_ltb a' b' else false
  end.

(** [sep.join(l)] *)
Fixpoint join (sep : pystr) (l : list pystr) : pystr :=
  match l with
  | [] => []
  | [x] => x
  | x :: l' => x ++ sep ++ join sep l'
  end.

(** The INSERT statement of both update functions. *)
Definition insert_sql (tableName : pystr) (columnHeaders : list pystr) : pystr :=
  lit "INSERT INTO " ++ tableName ++ lit " VALUES ("
  ++ join (lit ",") (map (fun _ => lit "?") columnHeaders) ++ lit ") ".

Definition prefStaticFields : list pystr :=
  map lit ["ID_BB_GLOBAL"; "NAME"; "CRNCY"; "CPN"]%string.
Definition prefStaticHeaders : list pystr :=
  map lit ["FIGI"; "Name"; "Currency"; "Coupon"]%string.
Definition prefPriceFields : list pystr :=
  map lit ["ID_BB_GLOBAL"; "PX_CLOSE_DT"; "PX_LAST"; "YLD_YTM_MID"; "MATURITY";
           "YLD_YTC_MID"; "NXT_CALL_DT"]%string.
Definition prefPriceHeaders : list pystr :=
  map lit ["EquityId"; "Date"; "Price"; "YieldToMaturity"; "ConventionalYieldTW";
           "WorstDate"]%string.

(** [prefStaticDataInsert] of [updatePrefStatic] (lines 258-261). *)
Definition prefStaticDataInsert (bbgdata : BbgDataFile) : res (list (list pystr)) :=
  prefStaticData <- getDataForFields bbgdata prefStaticFields ;;
  Ok (map (map cleanVal) prefStaticData).

(** The yield to worst and its date (lines 357-372). *)
Definition worst (ytm ytc maturity call_dt : pystr) : pystr * pystr :=
  if negb (str_eqb ytm NULL) && negb (str_eqb ytc NULL) then
    if str_ltb ytm ytc then (ytm, maturity) else (ytc, call_dt)
  else if negb (str_eqb ytm NULL) then (ytm, maturity)
  else (ytc, call_dt).

(** One iteration of the loop of [updatePrefPrice] (lines 349-374). *)
Definition price_row (row : list pystr) : res (list pystr) :=
  equityid <- index row 0 ;;
  r1 <- index row 1 ;; px_dt <- cleanDate r1 ;;
  r2 <- index row 2 ;; let px := cleanVal r2 in
  r3 <- index row 3 ;; let ytm := cleanVal r3 in
  r4 <- index row 4 ;; maturity <- cleanDate r4 ;;
  r5 <- index row 5 ;; let ytc := cleanVal r5 in
  r6 <- index row 6 ;; call_dt <- cleanDate r6 ;;
  let w := worst ytm ytc maturity call_dt in
  Ok [equityid; px_dt; px; ytm; fst w; snd w].

(** [prefPriceDataInsert] of [updatePrefPrice] (lines 343-374). *)
Definition prefPriceDataInsert (bbgdata : BbgDataFile) : res (list (list pystr)) :=
  prefPriceData <- getDataForFields bbgdata prefPriceFields ;;
  mapM price_row prefPriceData.

Definition count_char (c : ascii) (s : pystr) : nat := length (filter (ascii_eqb c) s).

(** ** Sample input

    A small file of the documented shape: the two fields the code checks
    against, and rows on the identifier of IBM common stock. *)

Definition sample_fields : list pystr := [lit "NAME"; lit "ID_BB_GLOBAL"].
Definition sample_row (name figi : string) : list pystr * list pystr :=
  ([lit "IBM US Equity"; lit "0"; lit "2"], [lit name; lit figi]).

Definition sample_pre : list pystr := [lit "PROGRAMNAME=getdata"; lit "DATARECORD=2"].

Definition sample_rows : list (list pystr * list pystr) :=
  [sample_row "IBM" "BBG000BLNNH6"; sample_row "IBM 2" "BBG000BLNNH6"].

(** The sample file as [readlines()] returns it: every line ends in a newline. *)
Definition with_newlines (lines : list pystr) : list pystr :=
  map (fun l => l ++ ["010"%char]) lines.

Definition sample_file : BbgDataFile :=
  {| fields := sample_fields;
     dataList := map (fun mv => mkrow sample_fields (snd mv)) sample_rows;
     nrows := 2 |}.

Definition sample_bad_row := sample_row "BAD" "BBG000BLNNH7".

(** A loaded file with the fields both update functions read (the identifier
    last, where the parser looks for it), and one row whose price date is
    [px_dt]. *)
Definition sample_pref_fields : list pystr :=
  map lit ["NAME"; "CRNCY"; "CPN"; "PX_CLOSE_DT"; "PX_LAST"; "YLD_YTM_MID"; "MATURITY";
           "YLD_YTC_MID"; "NXT_CALL_DT"; "ID_BB_GLOBAL"]%string.
Definition sample_pref (px_dt : string) : BbgDataFile :=
  {| fields := sample_pref_fields;
     dataList := [mkrow sample_pref_fields
                    (map lit ["PFD 6.1"; "USD"; "N.A."; px_dt; "24.95"; "6.10"; "20400101";
                              "5.95"; "20150630"; "BBG000BLNNH6"]%string)];
     nrows := 1 |}.

(** * Proofs *)

(** ** General facts about the Python fragment *)

Lemma mapM_ok {A B} (f : A -> res B) (g : A -> B) (l : list A) :
  (forall x, In x l -> f x = Ok (g x)) -> mapM f l = Ok (map g l).
Proof.
  induction l as [|x l IH]; intros H; [reflexivity|].
  simpl. rewrite (H x (or_introl eq_refl)). simpl.
  rewrite IH by (intros y Hy; apply H; right; exact Hy). reflexivity.
Qed.

Lemma str_eqb_single (a b : ascii) :
  str_eqb [a] [b] = if ascii_dec a b then true else false.
Proof.
  unfold str_eqb. destruct (list_eq_dec ascii_dec [a] [b]) as [E|E];
    destruct (ascii_dec a b) as [F|F]; congruence.
Qed.

Lemma str_eqb_true (a b : pystr) : str_eqb a b = true <-> a = b.
Proof. unfold str_eqb. destruct (list_eq_dec ascii_dec a b); split; congruence. Qed.

Lemma str_eqb_false (a b : pystr) : str_eqb a b = false <-> a <> b.
Proof. unfold str_eqb. destruct (list_eq_dec ascii_dec a b); split; congruence. Qed.

(** ** The validator on its alphabet *)

Lemma figi_char_value (c : ascii) :
  figi_char c = true ->
  (if is_alpha c then dict_get ascii_eqb c figiAlphaNumMap else int_of_str [c])
    = Ok (spec_value c) /\ 0 <= spec_value c <= 35.
Proof.
  destruct c as [[] [] [] [] [] [] [] []]; vm_compute; intros H;
    try discriminate H; split; try reflexivity; try (split; discriminate).
Qed.

Definition digitSum_table_ok : bool :=
  forallb (fun k => match digitSum (Z.of_nat k) with
                    | Ok v => Z.eqb v (spec_digit_sum (Z.of_nat k))
                    | Err _ => false
                    end) (seq 0 71).

Lemma digitSum_table : digitSum_table_ok = true.
Proof. vm_compute. reflexivity. Qed.

Lemma digitSum_small (n : Z) :
  0 <= n <= 70 -> digitSum n = Ok (spec_digit_sum n).
Proof.
  intros Hn. pose proof digitSum_table as T. unfold digitSum_table_ok in T.
  rewrite forallb_forall in T.
  specialize (T (Z.to_nat n)). rewrite Z2Nat.id in T by lia.
  destruct (digitSum n) as [v|e].
  - apply Z.eqb_eq in T; [subst; reflexivity|].
    apply in_seq. lia.
  - discriminate T. apply in_seq. lia.
Qed.

Lemma total_ok (xs : list Z) (k : nat) :
  Forall (fun x => 0 <= x <= 35) xs ->
  exists ds,
    mapM digitSum (map (fun ix => if Nat.odd (fst ix) then snd ix * 2 else snd ix)
                       (combine (seq k (length xs)) xs)) = Ok ds
    /\ fold_right Z.add 0 ds = spec_total (Nat.odd k) xs.
Proof.
  revert k. induction xs as [|x xs IH]; intros k Hall.
  - exists []. split; reflexivity.
  - inversion Hall as [|? ? Hx Hxs]; subst.
    destruct (IH (S k) Hxs) as [ds [Hds Hsum]].
    exists ((if Nat.odd k then spec_digit_sum (2 * x) else spec_digit_sum x) :: ds).
    simpl. split.
    + destruct (Nat.odd k).
      * rewrite digitSum_small by lia. simpl. rewrite Hds. simpl.
        rewrite Z.mul_comm. reflexivity.
      * rewrite digitSum_small by lia. simpl. rewrite Hds. reflexivity.
    + rewrite Hsum, Nat.odd_succ, <- Nat.negb_odd.
      destruct (Nat.odd k); reflexivity.
Qed.

Lemma str_int_digit (t : Z) : 0 <= t < 10 -> str_int t = [digit_char t].
Proof.
  intros Ht.
  assert (E : t = 0 \/ t = 1 \/ t = 2 \/ t = 3 \/ t = 4 \/ t = 5 \/ t = 6
              \/ t = 7 \/ t = 8 \/ t = 9) by lia.
  repeat destruct E as [E|E]; subst; reflexivity.
Qed.

Lemma length12_shape (figi : pystr) :
  length figi = 12%nat ->
  index figi (Z.of_nat (length figi) - 1) = Ok (nth 11 figi " "%char)
  /\ slice 0 (-1) figi = firstn 11 figi.
Proof.
  intros H.
  do 12 (destruct figi as [|? figi]; [discriminate H|]).
  destruct figi; [|discriminate H]. split; reflexivity.
Qed.

Lemma figi_char_alnum (figi : pystr) :
  length figi = 12%nat -> forallb figi_char figi = true -> str_isalnum figi = true.
Proof.
  intros Hl Hc. destruct figi as [|c figi]; [discriminate Hl|].
  unfold str_isalnum. apply forallb_forall. intros x Hx.
  rewrite forallb_forall in Hc. specialize (Hc x Hx).
  unfold figi_char, is_alnum, is_alpha in *.
  destruct (is_digit x), (is_upper x), (is_lower x); simpl in *; congruence.
Qed.

(** C1: on a 12-character string of decimal digits and upper-case letters,
    [checkFIGIDigit] never raises, and returns true exactly when the last
    character is the check digit computed from the first 11 characters:
    letters mapped to 10..35, odd 0-based positions doubled, the decimal
    digits of every resulting integer summed into T, and (10 - T mod 10) mod 10. *)
Theorem checkFIGIDigit_spec (figi : pystr) :
  length figi = 12%nat ->
  forallb figi_char figi = true ->
  checkFIGIDigit figi
  = Ok (if ascii_dec (nth 11 figi " "%char)
                     (digit_char (spec_check_digit (firstn 11 figi)))
        then true else false).
Proof.
  intros Hl Hc.
  destruct (length12_shape figi Hl) as [Hidx Hsl].
  pose proof (figi_char_alnum figi Hl Hc) as Han.
  assert (Hbody : forall c, In c (firstn 11 figi) -> figi_char c = true).
  { intros c Hin. rewrite forallb_forall in Hc. apply Hc.
    rewrite <- (firstn_skipn 11 figi). apply in_or_app. left. exact Hin. }
  unfold checkFIGIDigit. rewrite Hl, Han. simpl negb. cbv iota.
  rewrite <- Hl, Hidx. rewrite Hl. cbn [bind]. cbv iota beta.
  replace (12 =? 12)%nat with true by reflexivity.
  rewrite Hsl.
  rewrite (mapM_ok _ spec_value)
    by (intros c Hin; apply (figi_char_value c (Hbody c Hin))).
  cbn [bind].
  assert (Hrange : Forall (fun x => 0 <= x <= 35) (map spec_value (firstn 11 figi))).
  { apply Forall_forall. intros x Hx. apply in_map_iff in Hx.
    destruct Hx as [c [<- Hin]]. apply (figi_char_value c (Hbody c Hin)). }
  destruct (total_ok _ 0 Hrange) as [ds [Hds Hsum]].
  rewrite Hds. cbn [bind]. rewrite Hsum. change (Nat.odd 0) with false.
  unfold spec_check_digit.
  rewrite Zminus_mod_idemp_r.
  rewrite str_int_digit by (apply Z.mod_pos_bound; lia).
  rewrite str_eqb_single.
  destruct (ascii_dec _ _) as [E|E]; destruct (ascii_dec _ _) as [F|F];
    congruence.
Qed.

Lemma checkFIGIDigit_spec_witness :
  checkFIGIDigit (lit "BBG000BLNNH6")
  = Ok (if ascii_dec (nth 11 (lit "BBG000BLNNH6") " "%char)
                     (digit_char (spec_check_digit (firstn 11 (lit "BBG000BLNNH6"))))
        then true else false).
Proof. apply checkFIGIDigit_spec; vm_compute; reflexivity. Defined.

(** ** The parser loop *)

Lemma run_app (st : pstate) (l1 l2 : list pystr) :
  run st (l1 ++ l2) = (st' <- run st l1 ;; run st' l2).
Proof.
  revert st. induction l1 as [|l l1 IH]; intros st; [reflexivity|].
  simpl. destruct (step st l); [apply IH | reflexivity].
Qed.

Lemma step_strip (st : pstate) (a b : pystr) :
  strip a = strip b -> step st a = step st b.
Proof. intros H. unfold step. rewrite H. reflexivity. Qed.

Lemma run_same_trimmed (st : pstate) (lines lines' : list pystr) :
  same_trimmed lines lines' -> run st lines = run st lines'.
Proof.
  intros H. revert st. induction H as [|a b l l' Hab _ IH]; intros st; [reflexivity|].
  simpl. rewrite (step_strip st a b Hab). destruct (step st b); [apply IH|reflexivity].
Qed.

Lemma parseFileText_same_trimmed (lines lines' : list pystr) :
  same_trimmed lines lines' -> parseFileText lines = parseFileText lines'.
Proof.
  intros H. unfold parseFileText, parseRun. rewrite (run_same_trimmed _ _ _ H).
  reflexivity.
Qed.

(** ** Splitting a data line *)

Lemma split_aux_no_pipe (t rest cur : pystr) :
  no_pipe t = true -> split_aux "|" (t ++ rest) cur = split_aux "|" rest (rev t ++ cur).
Proof.
  revert cur. induction t as [|c t IH]; intros cur H; [reflexivity|].
  unfold no_pipe in H. simpl in H. apply negb_true_iff, orb_false_iff in H.
  destruct H as [Hc Ht]. simpl.
  destruct (ascii_dec c "|") as [E|E].
  - subst. discriminate Hc.
  - rewrite IH by (unfold no_pipe; rewrite Ht; reflexivity).
    rewrite <- app_assoc. reflexivity.
Qed.

Lemma split_join (ts : list pystr) :
  forallb no_pipe ts = true -> split "|" (join_pipes ts) = ts ++ [[]].
Proof.
  unfold split. induction ts as [|t ts IH]; intros H; [reflexivity|].
  simpl in H. apply andb_true_iff in H. destruct H as [Ht Hts].
  unfold join_pipes. simpl. rewrite <- app_assoc.
  rewrite split_aux_no_pipe by exact Ht. simpl.
  rewrite app_nil_r, rev_involutive. f_equal. apply IH, Hts.
Qed.

Lemma lstrip_app_nonspace (a r : pystr) (c : ascii) :
  is_space c = false -> lstrip (a ++ c :: r) = lstrip a ++ c :: r.
Proof.
  intros Hc. induction a as [|x a IH]; simpl.
  - rewrite Hc. reflexivity.
  - destruct (is_space x); [exact IH | reflexivity].
Qed.

Lemma lstrip_no_pipe (a : pystr) : no_pipe a = true -> no_pipe (lstrip a) = true.
Proof.
  induction a as [|x a IH]; intros H; [reflexivity|].
  simpl. destruct (is_space x); [|exact H].
  apply IH. unfold no_pipe in *. simpl in H.
  apply negb_true_iff, orb_false_iff in H. rewrite (proj2 H). reflexivity.
Qed.

Lemma join_pipes_snoc (ts : list pystr) :
  ts <> [] -> exists x, join_pipes ts = x ++ ["|"%char].
Proof.
  intros H. destruct (exists_last H) as [ts' [t ->]].
  unfold join_pipes. rewrite map_app, concat_app. simpl. rewrite app_nil_r.
  exists (concat (map (fun t0 => t0 ++ ["|"%char]) ts') ++ t).
  rewrite app_assoc. reflexivity.
Qed.

Lemma strip_row_text (m1 m2 m3 : pystr) (vals : list pystr) :
  strip (join_pipes (m1 :: m2 :: m3 :: vals))
  = join_pipes (lstrip m1 :: m2 :: m3 :: vals).
Proof.
  assert (Hl : lstrip (join_pipes (m1 :: m2 :: m3 :: vals))
               = join_pipes (lstrip m1 :: m2 :: m3 :: vals)).
  { unfold join_pipes. simpl. rewrite <- !app_assoc. simpl.
    rewrite lstrip_app_nonspace by reflexivity. reflexivity. }
  unfold strip. rewrite Hl.
  destruct (join_pipes_snoc (lstrip m1 :: m2 :: m3 :: vals)) as [x Hx]; [discriminate|].
  rewrite Hx, rev_app_distr. simpl. rewrite rev_involutive. reflexivity.
Qed.

Lemma slice_removelast {A} (l : list A) :
  slice 0 (Z.of_nat (length l) - 1) l = removelast l.
Proof.
  destruct l as [|x l]; [reflexivity|].
  rewrite removelast_firstn_len. unfold slice, slice_bound.
  simpl length. replace (0 <? 0) with false by reflexivity.
  replace (Z.of_nat (S (length l)) - 1 <? 0) with false by (symmetry; apply Z.ltb_ge; lia).
  simpl skipn. replace (Nat.min (Z.to_nat (Z.of_nat (S (length l)) - 1)) (S (length l)))
    with (length l) by lia.
  simpl. rewrite Nat.sub_0_r. reflexivity.
Qed.

Lemma candidate_removelast (line : pystr) :
  candidate line = removelast (skipn 3 (split "|" line)).
Proof. unfold candidate. apply slice_removelast. Qed.

Lemma candidate_row_text (m vals : list pystr) :
  length m = 3%nat -> forallb no_pipe (m ++ vals) = true ->
  candidate (strip (row_text (m, vals))) = vals.
Proof.
  intros Hm Hp. destruct m as [|m1 [|m2 [|m3 [|? ?]]]]; try discriminate Hm.
  unfold row_text. simpl fst. simpl snd. simpl app. rewrite strip_row_text.
  simpl in Hp. apply andb_true_iff in Hp. destruct Hp as [H1 Hp].
  rewrite candidate_removelast, split_join.
  - simpl skipn. apply removelast_last.
  - simpl. rewrite lstrip_no_pipe by exact H1. exact Hp.
Qed.

Lemma strip_row_text_ends (mv : list pystr * list pystr) :
  length (fst mv) = 3%nat -> exists x, strip (row_text mv) = x ++ ["|"%char].
Proof.
  destruct mv as [m vals]. simpl. intros Hm.
  destruct m as [|m1 [|m2 [|m3 [|? ?]]]]; try discriminate Hm.
  unfold row_text. simpl. rewrite strip_row_text. apply join_pipes_snoc. discriminate.
Qed.

Lemma not_END_OF_DATA (x : pystr) : str_eqb (x ++ ["|"%char]) END_OF_DATA = false.
Proof.
  unfold str_eqb. destruct (list_eq_dec ascii_dec _ _) as [E|E]; [|reflexivity].
  apply (f_equal (@rev ascii)) in E. rewrite rev_app_distr in E. discriminate E.
Qed.

Lemma index_last {A} (l : list A) (d : A) : l <> [] -> index l (-1) = Ok (last l d).
Proof.
  intros H. destruct (exists_last H) as [l' [x ->]].
  unfold index. rewrite last_last, length_app. simpl length.
  replace (-1 <? 0) with true by reflexivity.
  replace (-1 + Z.of_nat (length l' + 1)) with (Z.of_nat (length l')) by lia.
  replace ((Z.of_nat (length l') <? 0) || (Z.of_nat (length l' + 1) <=? Z.of_nat (length l')))
    with false by (symmetry; apply orb_false_iff; split; [apply Z.ltb_ge | apply Z.leb_gt]; lia).
  rewrite Nat2Z.id, nth_error_app2, Nat.sub_diag by lia. reflexivity.
Qed.

Ltac state_tests Hs :=
  rewrite Hs; cbn [Z.eqb Pos.eqb andb].

(** One data line of a well-formed data section. *)
Lemma step_row (st : pstate) (mv : list pystr * list pystr) :
  st_state st = 2 -> row_ok (length (st_fields st)) mv = true ->
  exists st', step st (row_text mv) = Ok st'
    /\ st_state st' = 2 /\ st_fields st' = st_fields st
    /\ st_dataList st' = st_dataList st
         ++ (if figi_valid mv then [mkrow (st_fields st) (snd mv)] else []).
Proof.
  intros Hs Hok. destruct mv as [m vals]. unfold row_ok in Hok. simpl fst in Hok. simpl snd in Hok.
  apply andb_true_iff in Hok as [Hok Hchk]. apply andb_true_iff in Hok as [Hok Hlen].
  apply andb_true_iff in Hok as [Hm Hp]. apply Nat.eqb_eq in Hm, Hlen.
  destruct (strip_row_text_ends (m, vals) Hm) as [x Hx].
  pose proof (candidate_row_text m vals Hm Hp) as Hc.
  assert (Hne : vals <> []) by (destruct vals; [discriminate Hchk | discriminate]).
  unfold step. state_tests Hs. rewrite Hx, not_END_OF_DATA. rewrite <- Hx.
  unfold data_line. rewrite Hc, Hlen, Nat.eqb_refl. cbn [negb bind].
  rewrite (index_last vals [] Hne). cbn [bind].
  unfold figi_valid. simpl snd.
  destruct vals as [|v vs]; [contradiction|].
  destruct (checkFIGIDigit (last (v :: vs) [])) as [[|]|e]; try discriminate Hchk;
    cbn [negb bind]; eexists; repeat split; simpl; try rewrite app_nil_r; auto.
Qed.

Lemma run_rows (rows : list (list pystr * list pystr)) (st : pstate) :
  st_state st = 2 -> forallb (row_ok (length (st_fields st))) rows = true ->
  exists st', run st (map row_text rows) = Ok st'
    /\ st_state st' = 2 /\ st_fields st' = st_fields st
    /\ st_dataList st' = st_dataList st
         ++ map (fun mv => mkrow (st_fields st) (snd mv)) (filter figi_valid rows).
Proof.
  revert st. induction rows as [|mv rows IH]; intros st Hs Hok.
  - exists st. rewrite app_nil_r. repeat split; auto.
  - simpl in Hok. apply andb_true_iff in Hok as [Hmv Hrows].
    destruct (step_row st mv Hs Hmv) as [st1 [Hst1 [Hs1 [Hf1 Hd1]]]].
    rewrite <- Hf1 in Hrows.
    destruct (IH st1 Hs1 Hrows) as [st2 [Hst2 [Hs2 [Hf2 Hd2]]]].
    exists st2. simpl. rewrite Hst1. cbn [bind]. rewrite Hst2.
    repeat split; [exact Hs2 | congruence |].
    rewrite Hd2, Hd1, Hf1, <- app_assoc. f_equal.
    destruct (figi_valid mv); reflexivity.
Qed.

Lemma run_field_lines (flines : list pystr) (st : pstate) :
  st_state st = 1 -> forallb field_line_ok flines = true ->
  exists st', run st flines = Ok st'
    /\ st_state st' = 1 /\ st_fields st' = st_fields st ++ map strip flines
    /\ st_dataList st' = st_dataList st.
Proof.
  revert st. induction flines as [|l flines IH]; intros st Hs Hok.
  - exists st. rewrite app_nil_r. repeat split; auto.
  - simpl in Hok. apply andb_true_iff in Hok as [Hl Hrest].
    unfold field_line_ok in Hl. apply negb_true_iff in Hl.
    simpl. unfold step at 1. state_tests Hs. rewrite Hl. cbn [bind].
    match goal with |- context [run ?s flines] =>
      destruct (IH s eq_refl Hrest) as [st2 [Hst2 [Hs2 [Hf2 Hd2]]]] end.
    exists st2. rewrite Hst2. repeat split; auto.
    rewrite Hf2. simpl. rewrite <- app_assoc. reflexivity.
Qed.

Lemma run_preamble (pre : list pystr) (st : pstate) :
  st_state st = 0 -> forallb preamble_ok pre = true ->
  exists st', run st pre = Ok st'
    /\ st_state st' = 0 /\ st_fields st' = st_fields st
    /\ st_dataList st' = st_dataList st.
Proof.
  revert st. induction pre as [|l pre IH]; intros st Hs Hok.
  - exists st. repeat split; auto.
  - simpl in Hok. apply andb_true_iff in Hok as [Hl Hrest].
    unfold preamble_ok in Hl.
    apply andb_true_iff in Hl as [Hl Hdr]. apply andb_true_iff in Hl as [Hl Hdat].
    apply andb_true_iff in Hl as [_ Hfld]. apply negb_true_iff in Hfld, Hdat.
    assert (Hstep : exists st1, step st l = Ok st1 /\ st_state st1 = 0
                    /\ st_fields st1 = st_fields st /\ st_dataList st1 = st_dataList st).
    { unfold step. state_tests Hs. rewrite Hfld, Hdat.
      destruct (contains DATARECORD (strip l)); cbn [negb orb] in Hdr.
      - destruct (index (split "=" (strip l)) 1) as [s1|]; [|discriminate Hdr].
        cbn [bind]. destruct (int_of_str s1) as [n|]; [|discriminate Hdr]. cbn [bind].
        destruct (negb _); eexists; repeat split; simpl; auto.
      - eexists; repeat split; auto. }
    destruct Hstep as [st1 [Hst1 [Hs1 [Hf1 Hd1]]]].
    destruct (IH st1 Hs1 Hrest) as [st2 [Hst2 [Hs2 [Hf2 Hd2]]]].
    exists st2. simpl. rewrite Hst1. cbn [bind]. rewrite Hst2. repeat split; congruence.
Qed.

Lemma step_START_OF_FIELDS (st : pstate) :
  st_state st = 0 -> step st START_OF_FIELDS = Ok (set_state 1 st).
Proof. intros Hs. unfold step. state_tests Hs. reflexivity. Qed.

Lemma step_START_OF_DATA (st : pstate) :
  st_state st = 0 -> step st START_OF_DATA = Ok (set_state 2 st).
Proof. intros Hs. unfold step. state_tests Hs. reflexivity. Qed.

Lemma step_END_OF_DATA (st : pstate) :
  st_state st = 2 -> step st END_OF_DATA = Ok (set_state 0 st).
Proof. intros Hs. unfold step. state_tests Hs. reflexivity. Qed.

Lemma step_END_OF_FIELDS (st : pstate) :
  st_state st = 1 ->
  exists st', step st END_OF_FIELDS = Ok st'
    /\ st_state st' = 0 /\ st_fields st' = st_fields st
    /\ st_dataList st' = st_dataList st.
Proof. intros Hs. unfold step. state_tests Hs. eexists. repeat split. Qed.

(** The parse of a well-formed file. *)
Lemma parse_bbg_file (pre flines : list pystr) (rows : list (list pystr * list pystr)) :
  forallb preamble_ok pre = true ->
  forallb field_line_ok flines = true ->
  forallb (row_ok (length flines)) rows = true ->
  parseFileText (bbg_file pre flines rows)
  = Ok (map strip flines,
        map (fun mv => mkrow (map strip flines) (snd mv)) (filter figi_valid rows)).
Proof.
  intros Hpre Hfl Hrows.
  unfold parseFileText, parseRun, bbg_file.
  cbn [app run]. replace (step init_state START_OF_FILE) with (Ok (set_state 0 init_state))
    by reflexivity. cbn [bind].
  destruct (run_preamble pre (set_state 0 init_state) eq_refl Hpre)
    as [st1 [H1 [Hs1 [Hf1 Hd1]]]].
  rewrite run_app, H1. cbn [bind app run].
  rewrite (step_START_OF_FIELDS st1 Hs1). cbn [bind].
  destruct (run_field_lines flines (set_state 1 st1) eq_refl Hfl)
    as [st2 [H2 [Hs2 [Hf2 Hd2]]]].
  rewrite run_app, H2. cbn [bind app run].
  destruct (step_END_OF_FIELDS st2 Hs2) as [st3 [H3 [Hs3 [Hf3 Hd3]]]].
  rewrite H3. cbn [bind]. rewrite (step_START_OF_DATA st3 Hs3). cbn [bind].
  assert (Hlen : length (st_fields (set_state 2 st3)) = length flines).
  { simpl. rewrite Hf3, Hf2. simpl. rewrite Hf1. simpl. apply length_map. }
  rewrite <- Hlen in Hrows.
  destruct (run_rows rows (set_state 2 st3) eq_refl Hrows) as [st4 [H4 [Hs4 [Hf4 Hd4]]]].
  rewrite run_app, H4. cbn [bind app run].
  rewrite (step_END_OF_DATA st4 Hs4). cbn [bind run].
  simpl. rewrite Hd4, Hf4. simpl. rewrite Hd3, Hf3, Hd2, Hf2. simpl.
  rewrite Hd1, Hf1. reflexivity.
Qed.

Lemma filter_all {A} (f : A -> bool) (l : list A) : forallb f l = true -> filter f l = l.
Proof.
  induction l as [|x l IH]; intros H; [reflexivity|].
  simpl in H. apply andb_true_iff in H as [Hx Hl]. simpl. rewrite Hx, IH by exact Hl.
  reflexivity.
Qed.

Lemma run_no_start (pre : list pystr) :
  (forall l, In l pre -> str_eqb (strip l) START_OF_FILE = false) ->
  run init_state pre = Ok init_state.
Proof.
  induction pre as [|l pre IH]; intros H; [reflexivity|].
  simpl. unfold step at 1. rewrite (H l (or_introl eq_refl)).
  cbn [st_state init_state Z.eqb Pos.eqb andb bind].
  apply IH. intros l' Hl'. apply H. right. exact Hl'.
Qed.

Lemma run_abort (pre rest : list pystr) (st : pstate) (l : pystr) (e : exn) :
  run init_state pre = Ok st -> step st l = Err e ->
  parseFileText (pre ++ l :: rest) = Err e.
Proof.
  intros Hpre Hl. unfold parseFileText, parseRun.
  rewrite run_app, Hpre. cbn [bind run]. rewrite Hl. reflexivity.
Qed.

Lemma mapM_err {A B} (f : A -> res B) (e : exn) (l : list A) :
  (forall x, In x l -> f x = Err e \/ exists v, f x = Ok v) ->
  (exists x, In x l /\ f x = Err e) ->
  mapM f l = Err e.
Proof.
  induction l as [|x l IH]; intros Hall [y [Hy Hfy]]; [destruct Hy|].
  simpl. destruct (Hall x (or_introl eq_refl)) as [Hx | [v Hx]]; rewrite Hx; cbn [bind];
    [reflexivity|].
  destruct Hy as [<- | Hy]; [congruence|].
  rewrite IH; [reflexivity | |].
  - intros z Hz. apply Hall. right. exact Hz.
  - exists y. split; assumption.
Qed.

Lemma alnum_char_value (c : ascii) :
  is_alnum c = true ->
  (if is_alpha c then dict_get ascii_eqb c figiAlphaNumMap else int_of_str [c])
    = (if is_lower c then Err KeyError else Ok (spec_value c)).
Proof.
  destruct c as [[] [] [] [] [] [] [] []]; vm_compute; intros H;
    first [discriminate H | reflexivity].
Qed.

Lemma int_of_str_err (s : pystr) (e : exn) : int_of_str s = Err e -> e = ValueError.
Proof.
  unfold int_of_str. cbv zeta. intros H.
  destruct (strip s) as [|c t]; [congruence|]. cbv iota beta in H.
  destruct (ascii_dec c "-"); [destruct (option_map Z.opp (int_digits t 0 false)); congruence|].
  destruct (ascii_dec c "+");
    [destruct (int_digits t 0 false) | destruct (int_digits (c :: t) 0 false)]; congruence.
Qed.

Lemma mapM_err_in {A B} (f : A -> res B) (l : list A) (e : exn) :
  mapM f l = Err e -> exists x, In x l /\ f x = Err e.
Proof.
  induction l as [|x l IH]; intros H; [discriminate H|].
  simpl in H. destruct (f x) as [y|e'] eqn:Fx; cbn [bind] in H.
  - destruct (mapM f l) as [ys|e'] eqn:Fl; cbn [bind] in H; [discriminate H|].
    injection H as ->. destruct (IH eq_refl) as [z [Hz Fz]].
    exists z. split; [right; exact Hz | exact Fz].
  - injection H as ->. exists x. split; [left; reflexivity | exact Fx].
Qed.

Lemma index_err {A} (l : list A) (i : Z) (e : exn) : index l i = Err e -> e = IndexError.
Proof.
  unfold index. destruct (_ || _); [congruence|].
  destruct (nth_error l _); congruence.
Qed.

Lemma dict_get_err {K V} (eqb : K -> K -> bool) (k : K) (d : list (K * V)) (e : exn) :
  dict_get eqb k d = Err e -> e = KeyError.
Proof.
  induction d as [|[k' v] d IH]; simpl; [congruence|].
  destruct (eqb k k'); [congruence | exact IH].
Qed.

(** The validator raises nothing but [KeyError], [ValueError] or [IndexError]. *)
Lemma checkFIGIDigit_err (figi : pystr) (e : exn) :
  checkFIGIDigit figi = Err e -> e = KeyError \/ e = ValueError \/ e = IndexError.
Proof.
  unfold checkFIGIDigit. cbv zeta. intros H.
  destruct (negb _); [discriminate H|]. destruct (negb _); [discriminate H|].
  destruct (index figi _) as [cd|e1] eqn:E1; cbn [bind] in H.
  2:{ injection H as <-. apply index_err in E1. auto. }
  destruct (mapM (fun ch => if is_alpha ch then dict_get ascii_eqb ch figiAlphaNumMap
                            else int_of_str [ch]) _) as [xx|e2] eqn:E2; cbn [bind] in H.
  2:{ injection H as <-. apply mapM_err_in in E2 as [x [_ Hx]].
      destruct (is_alpha x); [apply dict_get_err in Hx | apply int_of_str_err in Hx]; auto. }
  destruct (mapM digitSum _) as [ds|e3] eqn:E3; cbn [bind] in H; [discriminate H|].
  injection H as <-. apply mapM_err_in in E3 as [x [_ Hx]]. unfold digitSum in Hx.
  destruct (mapM _ (str_int x)) as [ds|e4] eqn:E4; cbn [bind] in Hx; [discriminate Hx|].
  injection Hx as <-. apply mapM_err_in in E4 as [c [_ Hc]]. apply int_of_str_err in Hc. auto.
Qed.

Lemma no_start_not_insufficient : PyException (PStr msg_insufficient) <> PyException (PStr msg_no_start).
Proof. discriminate. Qed.

(** No line of the loop raises the missing-start exception. *)
Lemma step_err_not_no_start (st : pstate) (l : pystr) (e : exn) :
  step st l = Err e -> e <> PyException (PStr msg_no_start).
Proof.
  unfold step, data_line. cbv zeta. intros H.
  repeat match type of H with
  | (if ?b then _ else _) = _ => destruct b
  | bind ?m _ = _ => let E := fresh "E" in destruct m eqn:E; cbn [bind] in H
  | Ok _ = _ => discriminate H
  | Err _ = Err _ => injection H as <-
  end;
  match goal with
  | E : index _ _ = Err _ |- _ => apply index_err in E; subst; discriminate
  | E : int_of_str _ = Err _ |- _ => apply int_of_str_err in E; subst; discriminate
  | E : checkFIGIDigit _ = Err _ |- _ =>
      apply checkFIGIDigit_err in E; destruct E as [-> | [-> | ->]]; discriminate
  | |- _ => exact no_start_not_insufficient
  end.
Qed.

Lemma run_err_not_no_start (st : pstate) (lines : list pystr) (e : exn) :
  run st lines = Err e -> e <> PyException (PStr msg_no_start).
Proof.
  revert st. induction lines as [|l lines IH]; intros st H; [discriminate H|].
  simpl in H. destruct (step st l) as [st1|e1] eqn:E; cbn [bind] in H.
  - exact (IH st1 H).
  - injection H as <-. exact (step_err_not_no_start _ _ _ E).
Qed.

(** Once START-OF-FILE has been seen the loop never returns to state -1. *)
Lemma step_state_started (st st' : pstate) (l : pystr) :
  step st l = Ok st' -> st_state st <> -1 -> st_state st' <> -1.
Proof.
  unfold step, data_line. cbv zeta. intros H Hs.
  repeat match type of H with
  | (if ?b then _ else _) = _ => let E := fresh "C" in destruct b eqn:E
  | bind ?m _ = _ => let E := fresh "E" in destruct m eqn:E; cbn [bind] in H
  | Err _ = _ => discriminate H
  | Ok _ = Ok _ => injection H as <-
  end; cbn [st_state set_state print]; try exact Hs; try discriminate.
Qed.

Lemma run_state_started (st st' : pstate) (lines : list pystr) :
  run st lines = Ok st' ->
  (st_state st <> -1 \/ exists l, In l lines /\ str_eqb (strip l) START_OF_FILE = true) ->
  st_state st' <> -1.
Proof.
  revert st. induction lines as [|l lines IH]; intros st H Hpre.
  - injection H as <-. destruct Hpre as [Hs | [l [[] _]]]. exact Hs.
  - simpl in H. destruct (step st l) as [st1|e] eqn:E; cbn [bind] in H; [|discriminate H].
    apply (IH st1 H).
    destruct Hpre as [Hs | [l' [[<- | Hin] Hl']]].
    + left. exact (step_state_started _ _ _ E Hs).
    + left. destruct (Z.eq_dec (st_state st) (-1)) as [Hs|Hs].
      * unfold step in E. rewrite Hs, Hl' in E. cbn [Z.eqb Pos.eqb andb] in E.
        injection E as <-. discriminate.
      * exact (step_state_started _ _ _ E Hs).
    + right. exists l'. split; assumption.
Qed.

(** ** The claims *)

(** C2: a well-formed file (section markers, preamble, K field-name lines,
    M data rows whose identifiers pass the checksum; each line up to
    surrounding whitespace) builds a [BbgDataFile] with [nrows = M],
    K fields, and the rows in file order. *)
Theorem BbgDataFile_roundtrip (lines pre flines : list pystr)
    (rows : list (list pystr * list pystr)) :
  same_trimmed lines (bbg_file pre flines rows) ->
  forallb preamble_ok pre = true ->
  forallb field_line_ok flines = true ->
  forallb (row_ok (length flines)) rows = true ->
  forallb figi_valid rows = true ->
  exists b, BbgDataFile_init lines = Ok b
    /\ nrows b = length rows /\ length (fields b) = length flines
    /\ dataList b = map (fun mv => mkrow (map strip flines) (snd mv)) rows.
Proof.
  intros Htr Hpre Hfl Hrows Hvalid.
  unfold BbgDataFile_init. rewrite (parseFileText_same_trimmed _ _ Htr).
  rewrite (parse_bbg_file pre flines rows Hpre Hfl Hrows), (filter_all _ _ Hvalid).
  cbn [bind]. eexists. repeat split; simpl.
  - apply length_map.
  - apply length_map.
Qed.

Lemma BbgDataFile_roundtrip_witness :
  exists b, BbgDataFile_init (with_newlines (bbg_file sample_pre sample_fields sample_rows)) = Ok b
    /\ nrows b = length sample_rows /\ length (fields b) = length sample_fields
    /\ dataList b = map (fun mv => mkrow (map strip sample_fields) (snd mv)) sample_rows.
Proof.
  apply (BbgDataFile_roundtrip _ sample_pre sample_fields sample_rows);
    [vm_compute; repeat constructor | vm_compute; reflexivity ..].
Defined.

(** C3 (as the code does it): declaring a field name twice is not rejected;
    END-OF-FIELDS only builds the name-to-position map, the parse goes on,
    and the field list keeps both copies. *)
Theorem duplicate_fields_accepted (lines pre flines : list pystr)
    (rows : list (list pystr * list pystr)) :
  same_trimmed lines (bbg_file pre flines rows) ->
  forallb preamble_ok pre = true ->
  forallb field_line_ok flines = true ->
  forallb (row_ok (length flines)) rows = true ->
  ~ NoDup (map strip flines) ->
  parseFileText lines
  = Ok (map strip flines,
        map (fun mv => mkrow (map strip flines) (snd mv)) (filter figi_valid rows)).
Proof.
  intros Htr Hpre Hfl Hrows _.
  rewrite (parseFileText_same_trimmed _ _ Htr).
  apply parse_bbg_file; assumption.
Qed.

Lemma duplicate_fields_accepted_witness :
  parseFileText (bbg_file [] [lit "NAME"; lit "NAME"] [])
  = Ok ([lit "NAME"; lit "NAME"], []).
Proof.
  apply (duplicate_fields_accepted _ [] [lit "NAME"; lit "NAME"] []);
    [vm_compute; repeat constructor | vm_compute; reflexivity .. |].
  vm_compute. intros H. inversion H as [|? ? Hn]. apply Hn. left. reflexivity.
Defined.

(** C3 as stated fails: a fields section declaring [NAME] twice parses. *)
Lemma duplicate_fields_counterexample :
  parseFileText (map lit ["START-OF-FILE"; "START-OF-FIELDS"; "NAME"; "NAME";
                          "END-OF-FIELDS"]%string)
  = Ok ([lit "NAME"; lit "NAME"], []).
Proof. vm_compute. reflexivity. Qed.

(** C4 (code defect): when a requested column is not a declared field,
    [getDataForFields] evaluates ['...:' + [offending columns]], a [str] plus
    a [list], and so raises [TypeError] instead of an exception that carries
    the offending names. *)
Theorem getDataForFields_unknown_TypeError (b : BbgDataFile) (columns : list pystr) :
  existsb (fun c => negb (existsb (str_eqb c) (fields b))) columns = true ->
  getDataForFields b columns = Err TypeError.
Proof.
  intros H. unfold getDataForFields.
  assert (Hg : forallb (fun g => g) (map (fun f => existsb (str_eqb f) (fields b)) columns)
               = false).
  { induction columns as [|c cs IH]; [discriminate H|].
    simpl in H |- *. destruct (existsb (str_eqb c) (fields b)); [|reflexivity].
    apply IH, H. }
  rewrite Hg. reflexivity.
Qed.

Lemma getDataForFields_unknown_TypeError_witness :
  getDataForFields sample_file [lit "Unknown1"; lit "Unknown2"] = Err TypeError.
Proof. apply getDataForFields_unknown_TypeError. vm_compute. reflexivity. Defined.

(** C5 (code defect): a 12-character alphanumeric string with a lower-case
    letter among its first 11 characters makes [checkFIGIDigit] raise
    [KeyError] (the letter is looked up in [figiAlphaNumMap], which holds
    only upper-case letters) instead of returning false. *)
Theorem checkFIGIDigit_lower_KeyError (figi : pystr) :
  length figi = 12%nat -> str_isalnum figi = true ->
  existsb is_lower (firstn 11 figi) = true ->
  checkFIGIDigit figi = Err KeyError.
Proof.
  intros Hl Han Hlow.
  destruct (length12_shape figi Hl) as [Hidx Hsl].
  assert (Hal : forall c, In c (firstn 11 figi) -> is_alnum c = true).
  { intros c Hin. destruct figi as [|f fs]; [discriminate Hl|].
    unfold str_isalnum in Han. rewrite forallb_forall in Han. apply Han.
    rewrite <- (firstn_skipn 11 (f :: fs)). apply in_or_app. left. exact Hin. }
  unfold checkFIGIDigit. rewrite Hl, Han. simpl negb. cbv iota.
  rewrite <- Hl, Hidx. rewrite Hl. cbn [bind].
  replace (12 =? 12)%nat with true by reflexivity. rewrite Hsl.
  rewrite (mapM_err _ KeyError).
  - reflexivity.
  - intros c Hin. rewrite (alnum_char_value c (Hal c Hin)).
    destruct (is_lower c); [left; reflexivity | right; eexists; reflexivity].
  - apply existsb_exists in Hlow. destruct Hlow as [c [Hin Hc]].
    exists c. split; [exact Hin|]. rewrite (alnum_char_value c (Hal c Hin)), Hc.
    reflexivity.
Qed.

Lemma checkFIGIDigit_lower_KeyError_witness :
  checkFIGIDigit (lit "bbg000blnnh6") = Err KeyError.
Proof. apply checkFIGIDigit_lower_KeyError; vm_compute; reflexivity. Defined.

(** C6 (as the code does it): before START-OF-FILE every other line is
    ignored, so lines before it do not change the result; the parse fails
    with the missing-start error when no line trims to START-OF-FILE, and
    only then: a file with such a line never fails with that error. *)
Theorem awaiting_start_skips (pre rest : list pystr) :
  (forall l, In l pre -> str_eqb (strip l) START_OF_FILE = false) ->
  parseFileText (pre ++ rest) = parseFileText rest
  /\ parseFileText pre = Err (PyException (PStr msg_no_start))
  /\ (forall lines : list pystr,
        (exists l, In l lines /\ str_eqb (strip l) START_OF_FILE = true) ->
        parseFileText lines <> Err (PyException (PStr msg_no_start))).
Proof.
  intros H. split; [|split].
  - unfold parseFileText, parseRun. rewrite run_app, (run_no_start pre H). reflexivity.
  - unfold parseFileText, parseRun. rewrite (run_no_start pre H). reflexivity.
  - intros lines Hl. unfold parseFileText, parseRun.
    destruct (run init_state lines) as [st|e] eqn:R; cbn [bind].
    + pose proof (run_state_started _ _ _ R (or_intror Hl)) as Hs.
      destruct (Z.eqb_spec (st_state st) (-1)) as [E|_]; [contradiction|].
      destruct (negb _); discriminate.
    + intros E. injection E as ->. exact (run_err_not_no_start _ _ _ R eq_refl).
Qed.

Lemma awaiting_start_skips_witness :
  parseFileText (lit "junk" :: bbg_file [] sample_fields [])
  = parseFileText (bbg_file [] sample_fields [])
  /\ parseFileText [lit "junk"] = Err (PyException (PStr msg_no_start))
  /\ (forall lines : list pystr,
        (exists l, In l lines /\ str_eqb (strip l) START_OF_FILE = true) ->
        parseFileText lines <> Err (PyException (PStr msg_no_start))).
Proof.
  apply (awaiting_start_skips [lit "junk"]).
  intros l [<- | []]. vm_compute. reflexivity.
Defined.

(** C6 as stated fails: a line before START-OF-FILE is not fatal. *)
Lemma awaiting_start_counterexample :
  parseFileText (map lit ["junk"; "START-OF-FILE"]%string) = Ok ([], []).
Proof. vm_compute. reflexivity. Qed.

(** C7 (as the code does it): the candidate values are the pipe-split tokens
    without the first three and without the last remaining token, whether or
    not that token is empty. *)
Theorem candidate_drops_last_token (line : pystr) :
  candidate line = removelast (skipn 3 (split "|" line)).
Proof. unfold candidate. apply slice_removelast. Qed.

(** C7 as stated fails: on a line not ending in the delimiter the last value
    is lost. *)
Lemma candidate_counterexample :
  candidate (lit "m1|m2|m3|NAME|BBG000BLNNH6")
  <> skipn 3 (split "|" (lit "m1|m2|m3|NAME|BBG000BLNNH6")).
Proof. vm_compute. discriminate. Qed.

(** C8: in the data section, a line whose candidate value count differs
    from the declared field count raises, and the whole parse (and the
    construction of the [BbgDataFile]) fails with it. *)
Theorem field_count_mismatch_aborts (pre : list pystr) (st : pstate) (l : pystr)
    (rest : list pystr) :
  run init_state pre = Ok st -> st_state st = 2 ->
  str_eqb (strip l) END_OF_DATA = false ->
  length (candidate (strip l)) <> length (st_fields st) ->
  parseFileText (pre ++ l :: rest) = Err (PyException (PStr msg_insufficient))
  /\ BbgDataFile_init (pre ++ l :: rest) = Err (PyException (PStr msg_insufficient)).
Proof.
  intros Hpre Hs Hend Hlen.
  assert (Hstep : step st l = Err (PyException (PStr msg_insufficient))).
  { unfold step. state_tests Hs. rewrite Hend. unfold data_line.
    apply Nat.eqb_neq in Hlen. rewrite Hlen. reflexivity. }
  pose proof (run_abort pre rest st l _ Hpre Hstep) as H.
  split; [exact H|]. unfold BbgDataFile_init. rewrite H. reflexivity.
Qed.

Lemma field_count_mismatch_aborts_witness :
  parseFileText ([START_OF_FILE; START_OF_FIELDS] ++ sample_fields
                 ++ [END_OF_FIELDS; START_OF_DATA; lit "IBM US Equity|0|1|BBG000BLNNH6|"]
                 ++ [END_OF_DATA])
  = Err (PyException (PStr msg_insufficient))
  /\ BbgDataFile_init ([START_OF_FILE; START_OF_FIELDS] ++ sample_fields
                 ++ [END_OF_FIELDS; START_OF_DATA; lit "IBM US Equity|0|1|BBG000BLNNH6|"]
                 ++ [END_OF_DATA])
  = Err (PyException (PStr msg_insufficient)).
Proof.
  eapply (field_count_mismatch_aborts
            ([START_OF_FILE; START_OF_FIELDS] ++ sample_fields ++ [END_OF_FIELDS; START_OF_DATA])
            _ (lit "IBM US Equity|0|1|BBG000BLNNH6|") [END_OF_DATA]).
  - vm_compute. reflexivity.
  - reflexivity.
  - vm_compute. reflexivity.
  - vm_compute. discriminate.
Defined.

(** C9: in an otherwise well-formed file, one row whose identifier fails the
    checksum is skipped, every other row is kept in order, and [nrows] is the
    number of data lines minus one. *)
Theorem BbgDataFile_skips_bad_row (lines pre flines : list pystr)
    (rows1 rows2 : list (list pystr * list pystr)) (bad : list pystr * list pystr) :
  same_trimmed lines (bbg_file pre flines (rows1 ++ bad :: rows2)) ->
  forallb preamble_ok pre = true ->
  forallb field_line_ok flines = true ->
  forallb (row_ok (length flines)) (rows1 ++ bad :: rows2) = true ->
  forallb figi_valid rows1 = true -> forallb figi_valid rows2 = true ->
  figi_valid bad = false ->
  exists b, BbgDataFile_init lines = Ok b
    /\ nrows b = (length (rows1 ++ bad :: rows2) - 1)%nat
    /\ dataList b = map (fun mv => mkrow (map strip flines) (snd mv)) (rows1 ++ rows2).
Proof.
  intros Htr Hpre Hfl Hrows Hv1 Hv2 Hbad.
  unfold BbgDataFile_init. rewrite (parseFileText_same_trimmed _ _ Htr).
  rewrite (parse_bbg_file pre flines _ Hpre Hfl Hrows).
  rewrite filter_app. simpl filter. rewrite Hbad, (filter_all _ _ Hv1), (filter_all _ _ Hv2).
  cbn [bind]. eexists. split; [reflexivity|]. split; [|reflexivity].
  simpl. rewrite length_map, !length_app. simpl. lia.
Qed.

Lemma BbgDataFile_skips_bad_row_witness :
  exists b, BbgDataFile_init (with_newlines (bbg_file sample_pre sample_fields
                                 (sample_rows ++ sample_bad_row :: sample_rows))) = Ok b
    /\ nrows b = (length (sample_rows ++ sample_bad_row :: sample_rows) - 1)%nat
    /\ dataList b = map (fun mv => mkrow (map strip sample_fields) (snd mv))
                      (sample_rows ++ sample_rows).
Proof.
  apply (BbgDataFile_skips_bad_row _ sample_pre sample_fields sample_rows sample_rows
           sample_bad_row);
    [vm_compute; repeat constructor | vm_compute; reflexivity ..].
Defined.

(** C10: with no declared field, a data line whose candidate value sequence
    is empty passes the count check and then [datarow[-1]] raises
    [IndexError], which ends the parse. *)
Theorem empty_fields_IndexError (pre : list pystr) (st : pstate) (l : pystr)
    (rest : list pystr) :
  run init_state pre = Ok st -> st_state st = 2 -> st_fields st = [] ->
  str_eqb (strip l) END_OF_DATA = false -> candidate (strip l) = [] ->
  parseFileText (pre ++ l :: rest) = Err IndexError.
Proof.
  intros Hpre Hs Hf Hend Hc. apply (run_abort pre rest st l _ Hpre).
  unfold step. state_tests Hs. rewrite Hend. unfold data_line. rewrite Hc, Hf.
  reflexivity.
Qed.

Lemma empty_fields_IndexError_witness :
  parseFileText [START_OF_FILE; START_OF_DATA; lit "IBM US Equity|0|0|"; END_OF_DATA]
  = Err IndexError.
Proof.
  eapply (empty_fields_IndexError [START_OF_FILE; START_OF_DATA] _
            (lit "IBM US Equity|0|0|") [END_OF_DATA]).
  - vm_compute. reflexivity.
  - reflexivity.
  - reflexivity.
  - vm_compute. reflexivity.
  - vm_compute. reflexivity.
Defined.

(** ** Further properties of the code *)

(** *** [strip] *)

Lemma lstrip_idem (x : pystr) : lstrip (lstrip x) = lstrip x.
Proof.
  induction x as [|c x IH]; [reflexivity|]. simpl.
  destruct (is_space c) eqn:Hc; [exact IH|]. simpl. rewrite Hc. reflexivity.
Qed.

Lemma lstrip_split (x : pystr) :
  exists p, x = p ++ lstrip x /\ forallb is_space p = true.
Proof.
  induction x as [|c x IH]; [exists []; split; reflexivity|]. simpl.
  destruct (is_space c) eqn:Hc.
  - destruct IH as [p [Hp Hs]]. exists (c :: p). simpl. rewrite Hc, Hs.
    split; [rewrite <- Hp|]; reflexivity.
  - exists []. split; reflexivity.
Qed.

Lemma lstrip_head (x : pystr) :
  lstrip x = [] \/ exists c r, lstrip x = c :: r /\ is_space c = false.
Proof.
  induction x as [|c x IH]; [left; reflexivity|]. simpl.
  destruct (is_space c) eqn:Hc; [exact IH|]. right. exists c, x. split; auto.
Qed.

Lemma lstrip_nonspace_head (c : ascii) (r : pystr) :
  is_space c = false -> lstrip (c :: r) = c :: r.
Proof. intros H. simpl. rewrite H. reflexivity. Qed.

Lemma strip_idem (s : pystr) : strip (strip s) = strip s.
Proof.
  unfold strip at 2 3. set (t := lstrip s). set (u := lstrip (rev t)).
  assert (Hu : lstrip (rev u) = rev u).
  { destruct (lstrip_split (rev t)) as [p [Hp _]]. fold u in Hp.
    assert (Ht : t = rev u ++ rev p) by (rewrite <- rev_app_distr, <- Hp, rev_involutive;
                                         reflexivity).
    destruct (lstrip_head s) as [H0 | [c [r [H1 H2]]]].
    - change (lstrip s) with t in H0. rewrite H0 in Ht. destruct (rev u); [reflexivity | discriminate Ht].
    - change (lstrip s) with t in H1. rewrite H1 in Ht. destruct (rev u) as [|c' r']; [reflexivity|].
      simpl in Ht. injection Ht as -> _. apply lstrip_nonspace_head, H2. }
  unfold strip. rewrite Hu, rev_involutive. unfold u. rewrite lstrip_idem. reflexivity.
Qed.

Lemma strip_nonspace (s : pystr) : forallb (fun c => negb (is_space c)) s = true -> strip s = s.
Proof.
  intros H. assert (Hl : forall x, forallb (fun c => negb (is_space c)) x = true -> lstrip x = x).
  { intros [|c x] Hx; [reflexivity|]. simpl in Hx. apply andb_true_iff in Hx as [Hc _].
    apply lstrip_nonspace_head. destruct (is_space c); [discriminate Hc | reflexivity]. }
  unfold strip. rewrite (Hl s H), Hl, rev_involutive; [reflexivity|].
  rewrite forallb_forall in H |- *. intros x Hx. apply H, in_rev, Hx.
Qed.

(** X1: [cleanVal] is idempotent: cleaning an already cleaned value changes
    nothing (['NULL'] stays ['NULL'], any other result is already stripped). *)
Theorem cleanVal_idempotent (v : pystr) : cleanVal (cleanVal v) = cleanVal v.
Proof.
  unfold cleanVal. destruct (str_eqb (strip v) [] || str_eqb (strip v) NA) eqn:H.
  - vm_compute. reflexivity.
  - rewrite strip_idem, H. reflexivity.
Qed.

(** *** [cleanDate] *)

Definition year_ok (y : Z) : bool :=
  match zpad 4 y with
  | [a; b; c; d] =>
      is_digit a && is_digit b && is_digit c && is_digit d
      && match int_of_str [a; b; c; d] with Ok z => z =? y | Err _ => false end
      && str_eqb (str_int y) [a; b; c; d]
  | _ => false
  end.

Lemma year_table : forallb (fun k => year_ok (Z.of_nat k)) (seq 1900 (81 * 100)) = true.
Proof. vm_compute. reflexivity. Qed.

Lemma year_digits (y : Z) :
  1900 <= y <= 9999 ->
  exists a b c d, zpad 4 y = [a; b; c; d]
    /\ is_digit a && is_digit b && is_digit c && is_digit d = true
    /\ int_of_str [a; b; c; d] = Ok y /\ str_int y = [a; b; c; d].
Proof.
  intros Hy.
  assert (Hin : In (Z.to_nat y) (seq 1900 (81 * 100))) by (apply in_seq; lia).
  pose proof (proj1 (forallb_forall _ _) year_table (Z.to_nat y) Hin) as T.
  cbv beta in T. rewrite Z2Nat.id in T by lia. unfold year_ok in T.
  destruct (zpad 4 y) as [|a [|b [|c [|d [|? ?]]]]]; try discriminate T.
  exists a, b, c, d. split; [reflexivity|].
  apply andb_true_iff in T as [T Hs]. apply str_eqb_true in Hs.
  apply andb_true_iff in T as [Hd T]. split; [exact Hd|].
  destruct (int_of_str [a; b; c; d]) as [z|]; [|discriminate T].
  apply Z.eqb_eq in T. subst. split; [reflexivity | exact Hs].
Qed.

Definition md_ok (m d : Z) : bool :=
  match head (match_md (zpad 2 m ++ zpad 2 d)) with
  | Some (ms, ds, []) =>
      str_eqb ms (zpad 2 m) && str_eqb ds (zpad 2 d)
      && match int_of_str ms, int_of_str ds with
         | Ok m', Ok d' => (m' =? m) && (d' =? d)
         | _, _ => false
         end
      && forallb is_digit (zpad 2 m ++ zpad 2 d)
  | _ => false
  end.

Lemma md_table :
  forallb (fun i => forallb (fun j => md_ok (Z.of_nat i) (Z.of_nat j)) (seq 1 31)) (seq 1 12)
  = true.
Proof. vm_compute. reflexivity. Qed.

Lemma md_match (m d : Z) :
  1 <= m <= 12 -> 1 <= d <= 31 ->
  head (match_md (zpad 2 m ++ zpad 2 d)) = Some (zpad 2 m, zpad 2 d, [])
  /\ int_of_str (zpad 2 m) = Ok m /\ int_of_str (zpad 2 d) = Ok d
  /\ forallb is_digit (zpad 2 m ++ zpad 2 d) = true.
Proof.
  intros Hm Hd.
  assert (Hi : In (Z.to_nat m) (seq 1 12)) by (apply in_seq; lia).
  assert (Hj : In (Z.to_nat d) (seq 1 31)) by (apply in_seq; lia).
  pose proof (proj1 (forallb_forall _ _) md_table (Z.to_nat m) Hi) as T.
  cbv beta in T.
  pose proof (proj1 (forallb_forall _ _) T (Z.to_nat d) Hj) as T'. clear T.
  cbv beta in T'. rewrite !Z2Nat.id in T' by lia. unfold md_ok in T'.
  destruct (head (match_md (zpad 2 m ++ zpad 2 d))) as [[[ms ds] [|? ?]]|];
    try discriminate T'.
  apply andb_true_iff in T' as [T Hdig]. apply andb_true_iff in T as [T Hint].
  apply andb_true_iff in T as [Hms Hds].
  unfold str_eqb in Hms, Hds.
  destruct (list_eq_dec ascii_dec ms (zpad 2 m)); [subst|discriminate Hms].
  destruct (list_eq_dec ascii_dec ds (zpad 2 d)); [subst|discriminate Hds].
  destruct (int_of_str (zpad 2 m)) as [m'|]; [|discriminate Hint].
  destruct (int_of_str (zpad 2 d)) as [d'|]; [|discriminate Hint].
  apply andb_true_iff in Hint as [E1 E2]. apply Z.eqb_eq in E1, E2. subst.
  repeat split; assumption.
Qed.

Lemma digits_nonspace (s : pystr) :
  forallb is_digit s = true -> forallb (fun c => negb (is_space c)) s = true.
Proof.
  rewrite !forallb_forall. intros H c Hc. specialize (H c Hc).
  destruct c as [[] [] [] [] [] [] [] []]; vm_compute in H |- *;
    first [discriminate H | reflexivity].
Qed.

Lemma match_Ymd_digits (a b c e : ascii) (r : pystr) :
  is_digit a && is_digit b && is_digit c && is_digit e = true ->
  match_Ymd ([a; b; c; e] ++ r)
  = option_map (fun mdr => ([a; b; c; e], fst (fst mdr), snd (fst mdr), snd mdr))
               (head (match_md r)).
Proof.
  intros H. unfold match_Ymd.
  change (re_Y ([a; b; c; e] ++ r))
    with (if is_digit a && is_digit b && is_digit c && is_digit e
          then [([a; b; c; e], r)] else []).
  rewrite H. cbn [flat_map fst snd]. rewrite app_nil_r.
  destruct (match_md r); reflexivity.
Qed.

(** X2: on an eight-digit date [YYYYMMDD] (year 1900..9999, month 1..12,
    day 1..31) [cleanDate] returns [YYYY-MM-DD] when the day exists in that
    month of that year (leap years included), and raises [ValueError]
    otherwise (for example on 30 February). *)
Theorem cleanDate_YYYYMMDD (y m d : Z) :
  1900 <= y <= 9999 -> 1 <= m <= 12 -> 1 <= d <= 31 ->
  cleanDate (zpad 4 y ++ zpad 2 m ++ zpad 2 d)
  = if d <=? days_in_month y m then Ok (format_Ymd y m d) else Err ValueError.
Proof.
  intros Hy Hm Hd.
  destruct (year_digits y Hy) as [a [b [c [e [Hys [Hdig [Hyi _]]]]]]].
  destruct (md_match m d Hm Hd) as [Hmd [Hmi [Hdi Hmdd]]].
  assert (Hall : forallb is_digit (zpad 4 y ++ zpad 2 m ++ zpad 2 d) = true).
  { rewrite forallb_app, Hmdd, Hys, andb_true_r.
    apply andb_true_iff in Hdig as [Hdig H4]. apply andb_true_iff in Hdig as [Hdig H3].
    apply andb_true_iff in Hdig as [H1 H2].
    cbn [forallb]. rewrite H1, H2, H3, H4. reflexivity. }
  assert (Hne : str_eqb (zpad 4 y ++ zpad 2 m ++ zpad 2 d) [] = false)
    by (rewrite Hys; reflexivity).
  assert (Hna : str_eqb (zpad 4 y ++ zpad 2 m ++ zpad 2 d) NA = false).
  { unfold str_eqb. destruct (list_eq_dec ascii_dec _ _) as [E|E]; [|reflexivity].
    rewrite E in Hall. discriminate Hall. }
  unfold cleanDate. rewrite (strip_nonspace _ (digits_nonspace _ Hall)), Hne, Hna.
  cbn [orb]. unfold strptime_Ymd. rewrite Hys, (match_Ymd_digits _ _ _ _ _ Hdig), Hmd.
  cbn [option_map fst snd]. rewrite Hyi, Hmi, Hdi. cbn [bind].
  unfold valid_date.
  replace ((1 <=? y) && (y <=? 9999) && (1 <=? m) && (m <=? 12) && (1 <=? d))
    with true by (symmetry; repeat (apply andb_true_iff; split); apply Z.leb_le; lia).
  cbn [andb]. destruct (d <=? days_in_month y m); reflexivity.
Qed.

Lemma cleanDate_YYYYMMDD_witness :
  cleanDate (zpad 4 2012 ++ zpad 2 2 ++ zpad 2 29)
  = if 29 <=? days_in_month 2012 2 then Ok (format_Ymd 2012 2 29) else Err ValueError.
Proof. apply cleanDate_YYYYMMDD; lia. Defined.

(** X3: what [cleanVal] hands to the database is never empty, never
    ['N.A.'], and has no surrounding whitespace. *)
Theorem cleanVal_result (v : pystr) :
  cleanVal v <> [] /\ cleanVal v <> NA /\ strip (cleanVal v) = cleanVal v.
Proof.
  unfold cleanVal. destruct (str_eqb (strip v) [] || str_eqb (strip v) NA) eqn:H.
  - vm_compute. repeat split; discriminate.
  - apply orb_false_iff in H as [H1 H2]. unfold str_eqb in H1, H2.
    destruct (list_eq_dec ascii_dec (strip v) []) as [|N1]; [discriminate H1|].
    destruct (list_eq_dec ascii_dec (strip v) NA) as [|N2]; [discriminate H2|].
    repeat split; [exact N1 | exact N2 | apply strip_idem].
Qed.

Lemma strptime_Ymd_result (s : pystr) :
  match strptime_Ymd s with
  | Ok (y, m, d) => valid_date y m d = true
  | Err e => e = ValueError
  end.
Proof.
  unfold strptime_Ymd.
  destruct (match_Ymd s) as [[[[ys ms] ds] [|? ?]]|]; try reflexivity.
  destruct (int_of_str ys) as [y|e] eqn:E1; cbn [bind]; [|exact (int_of_str_err _ _ E1)].
  destruct (int_of_str ms) as [m|e] eqn:E2; cbn [bind]; [|exact (int_of_str_err _ _ E2)].
  destruct (int_of_str ds) as [d|e] eqn:E3; cbn [bind]; [|exact (int_of_str_err _ _ E3)].
  destruct (valid_date y m d) eqn:V; [exact V | reflexivity].
Qed.

(** X4: [cleanDate] returns ['NULL'] or a real calendar date written
    [YYYY-MM-DD]; the only exception it raises is [ValueError]. *)
Theorem cleanDate_result (s : pystr) :
  match cleanDate s with
  | Ok r => r = NULL \/ exists y m d, valid_date y m d = true /\ r = format_Ymd y m d
  | Err e => e = ValueError
  end.
Proof.
  unfold cleanDate. destruct (_ || _); [left; reflexivity|].
  pose proof (strptime_Ymd_result (strip s)) as H.
  destruct (strptime_Ymd (strip s)) as [[[y m] d]|e]; cbn [bind].
  - right. exists y, m, d. split; [exact H | reflexivity].
  - exact H.
Qed.

Lemma re_m_dash (r : pystr) : re_m ("-"%char :: r) = [].
Proof. destruct r; reflexivity. Qed.

(** X5: [cleanDate] does not accept its own output: cleaning an already
    cleaned date [YYYY-MM-DD] again raises [ValueError]. *)
Theorem cleanDate_not_reentrant (y m d : Z) :
  1900 <= y <= 9999 -> 1 <= m <= 12 -> 1 <= d <= 31 ->
  cleanDate (format_Ymd y m d) = Err ValueError.
Proof.
  intros Hy Hm Hd.
  destruct (year_digits y Hy) as [a [b [c [e [Hys [Hdig [_ Hyf]]]]]]].
  destruct (md_match m d Hm Hd) as [_ [_ [_ Hmdd]]].
  rewrite forallb_app in Hmdd. apply andb_true_iff in Hmdd as [Hm2 Hd2].
  assert (Hsp : forallb (fun c => negb (is_space c)) (format_Ymd y m d) = true).
  { unfold format_Ymd. rewrite !forallb_app, (digits_nonspace _ Hm2), (digits_nonspace _ Hd2).
    rewrite Hyf. apply andb_true_iff in Hdig as [Hdig H4].
    apply andb_true_iff in Hdig as [Hdig H3]. apply andb_true_iff in Hdig as [H1 H2].
    pose proof (digits_nonspace [a; b; c; e]) as N. cbn [forallb] in N |- *.
    rewrite N by (rewrite H1, H2, H3, H4; reflexivity). reflexivity. }
  unfold cleanDate. rewrite (strip_nonspace _ Hsp).
  assert (Hne : str_eqb (format_Ymd y m d) [] = false)
    by (unfold format_Ymd; rewrite Hyf; reflexivity).
  assert (Hna : str_eqb (format_Ymd y m d) NA = false).
  { unfold str_eqb. destruct (list_eq_dec ascii_dec _ _) as [E|E]; [|reflexivity].
    unfold format_Ymd in E. rewrite Hyf in E. discriminate E. }
  rewrite Hne, Hna. cbn [orb]. unfold strptime_Ymd, format_Ymd.
  rewrite Hyf, (match_Ymd_digits _ _ _ _ _ Hdig).
  unfold match_md. cbn [app]. rewrite re_m_dash. reflexivity.
Qed.

Lemma cleanDate_not_reentrant_witness :
  cleanDate (format_Ymd 2011 5 10) = Err ValueError.
Proof. apply cleanDate_not_reentrant; lia. Defined.

(** *** The yield to worst of [updatePrefPrice] *)

Lemma str_ltb_irrefl (a : pystr) : str_ltb a a = false.
Proof.
  induction a as [|x a IH]; [reflexivity|]. simpl.
  rewrite Nat.ltb_irrefl. unfold ascii_eqb. destruct (ascii_dec x x); [exact IH|congruence].
Qed.

Lemma str_ltb_asym (a b : pystr) : str_ltb a b = true -> str_ltb b a = false.
Proof.
  revert b. induction a as [|x a IH]; intros [|y b] H; try reflexivity; try discriminate H.
  simpl in H |- *. unfold ascii_eqb in H |- *.
  destruct (Nat.ltb_spec (nat_of_ascii x) (nat_of_ascii y)) as [L|L].
  - destruct (Nat.ltb_spec (nat_of_ascii y) (nat_of_ascii x)); [lia|].
    destruct (ascii_dec y x); [subst; lia | reflexivity].
  - destruct (ascii_dec x y) as [->|]; [|discriminate H].
    rewrite Nat.ltb_irrefl. destruct (ascii_dec y y); [|congruence]. apply IH, H.
Qed.

(** X6: when both yields are present, the yield to worst is the smaller of
    the two in Python's string order (not numerically), paired with the
    matching date: the maturity for the yield to maturity, the call date
    for the yield to call. *)
Theorem worst_is_min (ytm ytc maturity call_dt : pystr) :
  ytm <> NULL -> ytc <> NULL ->
  (worst ytm ytc maturity call_dt = (ytm, maturity)
   \/ worst ytm ytc maturity call_dt = (ytc, call_dt))
  /\ str_ltb ytm (fst (worst ytm ytc maturity call_dt)) = false
  /\ str_ltb ytc (fst (worst ytm ytc maturity call_dt)) = false.
Proof.
  intros Hm Hc. apply str_eqb_false in Hm, Hc. unfold worst. rewrite Hm, Hc. cbn [negb andb].
  destruct (str_ltb ytm ytc) eqn:L; cbn [fst].
  - split; [left; reflexivity|]. split; [apply str_ltb_irrefl | apply str_ltb_asym, L].
  - split; [right; reflexivity|]. split; [exact L | apply str_ltb_irrefl].
Qed.

Lemma worst_is_min_witness :
  lit "10.5" <> NULL /\ lit "9.0" <> NULL
  /\ (worst (lit "10.5") (lit "9.0") (lit "2040-01-01") (lit "2015-06-30")
        = (lit "10.5", lit "2040-01-01")
      \/ worst (lit "10.5") (lit "9.0") (lit "2040-01-01") (lit "2015-06-30")
        = (lit "9.0", lit "2015-06-30"))
  /\ str_ltb (lit "10.5")
       (fst (worst (lit "10.5") (lit "9.0") (lit "2040-01-01") (lit "2015-06-30"))) = false
  /\ str_ltb (lit "9.0")
       (fst (worst (lit "10.5") (lit "9.0") (lit "2040-01-01") (lit "2015-06-30"))) = false.
Proof.
  assert (H1 : lit "10.5" <> NULL) by discriminate.
  assert (H2 : lit "9.0" <> NULL) by discriminate.
  split; [exact H1|]. split; [exact H2|].
  exact (worst_is_min (lit "10.5") (lit "9.0") (lit "2040-01-01") (lit "2015-06-30") H1 H2).
Defined.

(** X7: the yield to worst is ['NULL'] only when both yields are ['NULL']. *)
Theorem worst_NULL (ytm ytc maturity call_dt : pystr) :
  fst (worst ytm ytc maturity call_dt) = NULL <-> ytm = NULL /\ ytc = NULL.
Proof.
  unfold worst.
  destruct (str_eqb ytm NULL) eqn:Hm; destruct (str_eqb ytc NULL) eqn:Hc;
    apply str_eqb_true in Hm || apply str_eqb_false in Hm;
    apply str_eqb_true in Hc || apply str_eqb_false in Hc; cbn [negb andb fst].
  - tauto.
  - split; [intros E; contradiction | intros [_ E]; contradiction].
  - split; [intros E; contradiction | intros [E _]; contradiction].
  - destruct (str_ltb ytm ytc); cbn [fst];
      split; try (intros [E _]; contradiction); intros E; contradiction.
Qed.

(** *** The rows handed to [executemany] *)

Lemma mapM_Forall2 {A B} (f : A -> res B) (l : list A) (l' : list B) :
  mapM f l = Ok l' -> Forall2 (fun x y => f x = Ok y) l l'.
Proof.
  revert l'. induction l as [|x l IH]; intros l' H.
  - injection H as <-. constructor.
  - simpl in H. destruct (f x) as [y|e] eqn:Fx; [|discriminate H]. cbn [bind] in H.
    destruct (mapM f l) as [ys|e] eqn:Fl; [|discriminate H]. cbn [bind] in H.
    injection H as <-. constructor; [exact Fx | apply IH; reflexivity].
Qed.

Lemma getDataForFields_shape (b : BbgDataFile) (columns : list pystr)
    (data : list (list pystr)) :
  getDataForFields b columns = Ok data ->
  length data = length (dataList b) /\ Forall (fun r => length r = length columns) data.
Proof.
  unfold getDataForFields. destruct (negb _).
  - destruct (add _ _); discriminate.
  - intros H. apply mapM_Forall2 in H. split; [symmetry; apply (Forall2_length H)|].
    induction H as [|r row rs rows Hr _ IH]; constructor; [|exact IH].
    apply mapM_Forall2, Forall2_length in Hr. symmetry. exact Hr.
Qed.

Ltac res_steps H :=
  repeat match type of H with
  | bind ?m _ = _ => let E := fresh "E" in destruct m eqn:E; cbn [bind] in H
  end.

Lemma price_row_length (row out : list pystr) : price_row row = Ok out -> length out = 6%nat.
Proof.
  unfold price_row. intros H. res_steps H; try discriminate H.
  injection H as <-. reflexivity.
Qed.

(** X8: [updatePrefStatic] hands [executemany] one tuple per loaded data
    row, each with as many values as its INSERT statement has placeholders. *)
Theorem prefStaticDataInsert_shape (b : BbgDataFile) (rows : list (list pystr)) :
  prefStaticDataInsert b = Ok rows ->
  length rows = length (dataList b)
  /\ Forall (fun r => length r = count_char "?" (insert_sql (lit "PrefStatic") prefStaticHeaders))
            rows.
Proof.
  unfold prefStaticDataInsert. intros H.
  destruct (getDataForFields b prefStaticFields) as [data|e] eqn:G; [|discriminate H].
  injection H as <-. destruct (getDataForFields_shape _ _ _ G) as [Hl Hf].
  split; [rewrite length_map; exact Hl|].
  apply Forall_map. eapply Forall_impl; [|exact Hf].
  intros r Hr. rewrite length_map, Hr. reflexivity.
Qed.

Lemma prefStaticDataInsert_shape_witness :
  exists rows, prefStaticDataInsert (sample_pref "20110510") = Ok rows
  /\ length rows = length (dataList (sample_pref "20110510"))
  /\ Forall (fun r => length r = count_char "?" (insert_sql (lit "PrefStatic") prefStaticHeaders))
            rows.
Proof.
  destruct (prefStaticDataInsert (sample_pref "20110510")) as [rows|e] eqn:H;
    [|vm_compute in H; discriminate H].
  exists rows. split; [reflexivity|]. exact (prefStaticDataInsert_shape _ _ H).
Defined.

(** X9: [updatePrefPrice] hands [executemany] one tuple per loaded data row,
    each with as many values as its INSERT statement has placeholders. *)
Theorem prefPriceDataInsert_shape (b : BbgDataFile) (rows : list (list pystr)) :
  prefPriceDataInsert b = Ok rows ->
  length rows = length (dataList b)
  /\ Forall (fun r => length r = count_char "?" (insert_sql (lit "PrefPrice") prefPriceHeaders))
            rows.
Proof.
  unfold prefPriceDataInsert. intros H.
  destruct (getDataForFields b prefPriceFields) as [data|e] eqn:G; [|discriminate H].
  destruct (getDataForFields_shape _ _ _ G) as [Hl _]. cbn [bind] in H.
  apply mapM_Forall2 in H. split.
  - rewrite <- (Forall2_length H). exact Hl.
  - clear G Hl. induction H as [|row out rs outs Hr _ IH]; constructor; [|exact IH].
    rewrite (price_row_length _ _ Hr). reflexivity.
Qed.

Lemma cleanDate_err (s : pystr) (e : exn) : cleanDate s = Err e -> e = ValueError.
Proof.
  unfold cleanDate. destruct (_ || _); [discriminate|].
  pose proof (strptime_Ymd_result (strip s)) as H.
  destruct (strptime_Ymd (strip s)) as [[[y m] d]|e']; cbn [bind]; [discriminate|].
  intros E. injection E as <-. exact H.
Qed.

(** X10: once the price fields are fetched, preparing the price rows can
    only fail with [ValueError], from a date that [strptime] rejects: the
    rows always have the seven requested values, so [row[i]] never raises. *)
Theorem prefPriceDataInsert_errors (b : BbgDataFile) (e : exn) :
  prefPriceDataInsert b = Err e ->
  getDataForFields b prefPriceFields = Err e \/ e = ValueError.
Proof.
  unfold prefPriceDataInsert. intros H.
  destruct (getDataForFields b prefPriceFields) as [data|e'] eqn:G; [right|left; exact H].
  cbn [bind] in H. destruct (getDataForFields_shape _ _ _ G) as [_ Hf].
  destruct (mapM_err_in _ _ _ H) as [row [Hin Hrow]].
  rewrite Forall_forall in Hf. specialize (Hf row Hin).
  change (length prefPriceFields) with 7%nat in Hf.
  do 7 (destruct row as [|? row]; [discriminate Hf|]).
  destruct row; [|discriminate Hf].
  unfold price_row in Hrow. res_steps Hrow;
    try match goal with E : index _ _ = Err _ |- _ => cbv in E; discriminate E end;
    try (injection Hrow as <-; eapply cleanDate_err; eassumption); discriminate Hrow.
Qed.

Lemma prefPriceDataInsert_shape_witness :
  exists rows, prefPriceDataInsert (sample_pref "20110510") = Ok rows
  /\ length rows = length (dataList (sample_pref "20110510"))
  /\ Forall (fun r => length r = count_char "?" (insert_sql (lit "PrefPrice") prefPriceHeaders))
            rows.
Proof.
  destruct (prefPriceDataInsert (sample_pref "20110510")) as [rows|e] eqn:H;
    [|vm_compute in H; discriminate H].
  exists rows. split; [reflexivity|]. exact (prefPriceDataInsert_shape _ _ H).
Defined.

Lemma prefPriceDataInsert_errors_witness :
  getDataForFields (sample_pref "2011-05-10") prefPriceFields = Err ValueError
  \/ ValueError = ValueError.
Proof. apply prefPriceDataInsert_errors. vm_compute. reflexivity. Defined.

Lemma existsb_str_eqb (f : pystr) (l : list pystr) : existsb (str_eqb f) l = true <-> In f l.
Proof.
  rewrite existsb_exists. split.
  - intros [x [Hx E]]. apply str_eqb_true in E. subst. exact Hx.
  - intros Hf. exists f. split; [exact Hf | apply str_eqb_true; reflexivity].
Qed.

Lemma getDataForFields_missing (b : BbgDataFile) (columns : list pystr) (f : pystr) :
  In f columns -> ~ In f (fields b) -> getDataForFields b columns = Err TypeError.
Proof.
  intros Hin Hout. unfold getDataForFields.
  assert (Hg : forallb (fun g => g) (map (fun f => existsb (str_eqb f) (fields b)) columns)
               = false).
  { apply not_true_iff_false. intros Hall. rewrite forallb_forall in Hall.
    apply Hout, existsb_str_eqb, Hall, in_map_iff. exists f. split; [reflexivity | exact Hin]. }
  rewrite Hg. reflexivity.
Qed.

(** X11: [updatePrefPrice] on a file that lacks one of the seven price
    fields fails with [TypeError] (the code's [str + list] in the message)
    before any row is prepared. *)
Theorem prefPriceDataInsert_missing_field (b : BbgDataFile) (f : pystr) :
  In f prefPriceFields -> ~ In f (fields b) -> prefPriceDataInsert b = Err TypeError.
Proof.
  intros Hin Hout. unfold prefPriceDataInsert.
  rewrite (getDataForFields_missing b prefPriceFields f Hin Hout). reflexivity.
Qed.

Lemma prefPriceDataInsert_missing_field_witness :
  prefPriceDataInsert sample_file = Err TypeError.
Proof.
  apply (prefPriceDataInsert_missing_field sample_file (lit "PX_LAST")).
  - vm_compute. tauto.
  - vm_compute. intros [E|[E|[]]]; discriminate E.
Defined.

(** *** The validator on any input *)

Lemma alnum_not_lower (c : ascii) :
  is_alnum c = true -> is_lower c = false -> figi_char c = true.
Proof.
  unfold is_alnum, is_alpha, figi_char.
  destruct (is_upper c), (is_lower c), (is_digit c); simpl; congruence.
Qed.

Lemma digit_char_is_digit (t : Z) : 0 <= t < 10 -> is_digit (digit_char t) = true.
Proof.
  intros Ht.
  assert (E : t = 0 \/ t = 1 \/ t = 2 \/ t = 3 \/ t = 4 \/ t = 5 \/ t = 6
              \/ t = 7 \/ t = 8 \/ t = 9) by lia.
  repeat destruct E as [E|E]; subst; reflexivity.
Qed.

(** [checkFIGIDigit] on a 12-character alphanumeric string whose first 11
    characters are digits or upper-case letters. *)
Lemma checkFIGIDigit_body (figi : pystr) :
  length figi = 12%nat ->
  str_isalnum figi = true ->
  forallb figi_char (firstn 11 figi) = true ->
  checkFIGIDigit figi
  = Ok (if ascii_dec (nth 11 figi " "%char)
                     (digit_char (spec_check_digit (firstn 11 figi)))
        then true else false).
Proof.
  intros Hl Han Hc.
  destruct (length12_shape figi Hl) as [Hidx Hsl].
  assert (Hbody : forall c, In c (firstn 11 figi) -> figi_char c = true)
    by (rewrite forallb_forall in Hc; exact Hc).
  unfold checkFIGIDigit. rewrite Hl, Han. simpl negb. cbv iota.
  rewrite <- Hl, Hidx. rewrite Hl. cbn [bind]. cbv iota beta.
  replace (12 =? 12)%nat with true by reflexivity.
  rewrite Hsl.
  rewrite (mapM_ok _ spec_value)
    by (intros c Hin; apply (figi_char_value c (Hbody c Hin))).
  cbn [bind].
  assert (Hrange : Forall (fun x => 0 <= x <= 35) (map spec_value (firstn 11 figi))).
  { apply Forall_forall. intros x Hx. apply in_map_iff in Hx.
    destruct Hx as [c [<- Hin]]. apply (figi_char_value c (Hbody c Hin)). }
  destruct (total_ok _ 0 Hrange) as [ds [Hds Hsum]].
  rewrite Hds. cbn [bind]. rewrite Hsum. change (Nat.odd 0) with false.
  unfold spec_check_digit.
  rewrite Zminus_mod_idemp_r.
  rewrite str_int_digit by (apply Z.mod_pos_bound; lia).
  rewrite str_eqb_single.
  destruct (ascii_dec _ _) as [E|E]; destruct (ascii_dec _ _) as [F|F];
    congruence.
Qed.

(** X12: [checkFIGIDigit] raises only [KeyError], and only on a 12-character
    alphanumeric string with a lower-case letter among its first 11
    characters; on every other input it returns a boolean. *)
Theorem checkFIGIDigit_raises (figi : pystr) (e : exn) :
  checkFIGIDigit figi = Err e ->
  e = KeyError /\ length figi = 12%nat /\ str_isalnum figi = true
  /\ existsb is_lower (firstn 11 figi) = true.
Proof.
  intros H.
  destruct (Nat.eqb_spec (length figi) 12) as [Hl|Hl].
  2:{ unfold checkFIGIDigit in H. apply Nat.eqb_neq in Hl. rewrite Hl in H. discriminate H. }
  destruct (str_isalnum figi) eqn:Han.
  2:{ unfold checkFIGIDigit in H. rewrite Hl, Han in H. discriminate H. }
  assert (Hal : forall c, In c (firstn 11 figi) -> is_alnum c = true).
  { intros c Hin. destruct figi as [|f fs]; [discriminate Hl|].
    unfold str_isalnum in Han. rewrite forallb_forall in Han. apply Han.
    rewrite <- (firstn_skipn 11 (f :: fs)). apply in_or_app. left. exact Hin. }
  destruct (existsb is_lower (firstn 11 figi)) eqn:Hlow.
  - destruct (length12_shape figi Hl) as [Hidx Hsl].
    unfold checkFIGIDigit in H. rewrite Hl, Han in H. simpl negb in H. cbv iota in H.
    rewrite <- Hl, Hidx in H. rewrite Hl in H. cbn [bind] in H.
    replace (12 =? 12)%nat with true in H by reflexivity. rewrite Hsl in H.
    rewrite (mapM_err _ KeyError) in H.
    + injection H as <-. repeat split; reflexivity || assumption.
    + intros c Hin. rewrite (alnum_char_value c (Hal c Hin)).
      destruct (is_lower c); [left; reflexivity | right; eexists; reflexivity].
    + apply existsb_exists in Hlow. destruct Hlow as [c [Hin Hc]].
      exists c. split; [exact Hin|]. rewrite (alnum_char_value c (Hal c Hin)), Hc.
      reflexivity.
  - assert (Hc : forallb figi_char (firstn 11 figi) = true).
    { apply forallb_forall. intros c Hin. apply alnum_not_lower; [apply Hal, Hin|].
      apply not_true_iff_false. intros Lc. apply not_true_iff_false in Hlow.
      apply Hlow, existsb_exists. exists c. split; assumption. }
    rewrite (checkFIGIDigit_body figi Hl Han Hc) in H. discriminate H.
Qed.

Lemma checkFIGIDigit_raises_witness :
  KeyError = KeyError /\ length (lit "BBG000blnnH6") = 12%nat
  /\ str_isalnum (lit "BBG000blnnH6") = true
  /\ existsb is_lower (firstn 11 (lit "BBG000blnnH6")) = true.
Proof. apply checkFIGIDigit_raises. vm_compute. reflexivity. Defined.

(** X13: an identifier [checkFIGIDigit] accepts has 12 characters, all
    alphanumeric, and ends in a decimal digit: one ending in a letter is
    never accepted. *)
Theorem checkFIGIDigit_true_shape (figi : pystr) :
  checkFIGIDigit figi = Ok true ->
  length figi = 12%nat /\ str_isalnum figi = true /\ is_digit (nth 11 figi " "%char) = true.
Proof.
  intros H.
  destruct (Nat.eqb_spec (length figi) 12) as [Hl|Hl].
  2:{ unfold checkFIGIDigit in H. apply Nat.eqb_neq in Hl. rewrite Hl in H. discriminate H. }
  destruct (str_isalnum figi) eqn:Han.
  2:{ unfold checkFIGIDigit in H. rewrite Hl, Han in H. discriminate H. }
  split; [exact Hl|]. split; [reflexivity|].
  destruct (length12_shape figi Hl) as [Hidx Hsl].
  unfold checkFIGIDigit in H. rewrite Hl, Han in H. simpl negb in H. cbv iota in H.
  rewrite <- Hl, Hidx in H. cbn [bind] in H.
  destruct (mapM _ _) as [xx|e] in H; cbn [bind] in H; [|discriminate H].
  destruct (mapM digitSum _) as [ds|e] in H; cbn [bind] in H; [|discriminate H].
  injection H as H. apply str_eqb_true in H.
  rewrite str_int_digit in H by (apply Z.mod_pos_bound; lia).
  injection H as <-. apply digit_char_is_digit, Z.mod_pos_bound. lia.
Qed.

Lemma checkFIGIDigit_true_shape_witness :
  length (lit "BBG000BLNNH6") = 12%nat /\ str_isalnum (lit "BBG000BLNNH6") = true
  /\ is_digit (nth 11 (lit "BBG000BLNNH6") " "%char) = true.
Proof. apply checkFIGIDigit_true_shape. vm_compute. reflexivity. Defined.

(** X14: for an 11-character body of decimal digits and upper-case letters,
    exactly one 12th character makes [checkFIGIDigit] accept: the check
    digit computed from the body. *)
Theorem checkFIGIDigit_unique (body : pystr) (c : ascii) :
  length body = 11%nat -> forallb figi_char body = true ->
  checkFIGIDigit (body ++ [c]) = Ok true <-> c = digit_char (spec_check_digit body).
Proof.
  intros Hl Hb.
  assert (L12 : length (body ++ [c]) = 12%nat) by (rewrite length_app, Hl; reflexivity).
  assert (F11 : firstn 11 (body ++ [c]) = body)
    by (rewrite firstn_app, Hl, firstn_all2, Nat.sub_diag by lia; apply app_nil_r).
  assert (N11 : nth 11 (body ++ [c]) " "%char = c)
    by (rewrite app_nth2, Hl by lia; reflexivity).
  destruct (str_isalnum (body ++ [c])) eqn:Han.
  - rewrite (checkFIGIDigit_body _ L12 Han) by (rewrite F11; exact Hb).
    rewrite F11, N11. destruct (ascii_dec _ _); split; congruence.
  - assert (Hf : checkFIGIDigit (body ++ [c]) = Ok false).
    { unfold checkFIGIDigit. rewrite L12, Han. reflexivity. }
    rewrite Hf. split; [discriminate|]. intros Ec. exfalso.
    assert (Hd : is_digit c = true)
      by (rewrite Ec; apply digit_char_is_digit, Z.mod_pos_bound; lia).
    apply not_true_iff_false in Han. apply Han.
    destruct body as [|b0 bs]; [discriminate Hl|]. unfold str_isalnum.
    apply forallb_forall. intros x Hx. apply in_app_or in Hx as [Hx|[<-|[]]].
    + rewrite forallb_forall in Hb. specialize (Hb x Hx). unfold figi_char in Hb.
      unfold is_alnum, is_alpha.
      destruct (is_digit x), (is_upper x), (is_lower x); simpl in *; congruence.
    + unfold is_alnum. rewrite Hd. apply orb_true_r.
Qed.

Lemma checkFIGIDigit_unique_witness :
  checkFIGIDigit (lit "BBG000BLNNH" ++ ["6"%char]) = Ok true
  <-> "6"%char = digit_char (spec_check_digit (lit "BBG000BLNNH")).
Proof. apply checkFIGIDigit_unique; vm_compute; reflexivity. Defined.

(** *** The parser on cut or malformed files *)

Lemma run_start_preamble (pre : list pystr) :
  forallb preamble_ok pre = true ->
  exists st, run init_state (START_OF_FILE :: pre) = Ok st
    /\ st_state st = 0 /\ st_fields st = [] /\ st_dataList st = [].
Proof.
  intros Hpre. cbn [run].
  replace (step init_state START_OF_FILE) with (Ok (set_state 0 init_state))
    by reflexivity. cbn [bind].
  destruct (run_preamble pre (set_state 0 init_state) eq_refl Hpre)
    as [st [H [Hs [Hf Hd]]]].
  exists st. repeat split; assumption.
Qed.

(** X15: a file cut after its last data row, before END-OF-DATA, is
    rejected: the parse ends in the data state and raises the
    "does not end gracefully" exception. *)
Theorem missing_END_OF_DATA (pre flines : list pystr) (rows : list (list pystr * list pystr)) :
  forallb preamble_ok pre = true ->
  forallb field_line_ok flines = true ->
  forallb (row_ok (length flines)) rows = true ->
  parseFileText ([START_OF_FILE] ++ pre ++ [START_OF_FIELDS] ++ flines
                 ++ [END_OF_FIELDS; START_OF_DATA] ++ map row_text rows)
  = Err (PyException (PStr msg_not_graceful)).
Proof.
  intros Hpre Hfl Hrows.
  destruct (run_start_preamble pre Hpre) as [st1 [H1 [Hs1 [Hf1 _]]]].
  unfold parseFileText, parseRun.
  rewrite app_assoc, run_app. change ([START_OF_FILE] ++ pre) with (START_OF_FILE :: pre).
  rewrite H1. cbn [bind app run].
  rewrite (step_START_OF_FIELDS st1 Hs1). cbn [bind].
  destruct (run_field_lines flines (set_state 1 st1) eq_refl Hfl)
    as [st2 [H2 [Hs2 [Hf2 _]]]].
  rewrite run_app, H2. cbn [bind app run].
  destruct (step_END_OF_FIELDS st2 Hs2) as [st3 [H3 [Hs3 [Hf3 _]]]].
  rewrite H3. cbn [bind]. rewrite (step_START_OF_DATA st3 Hs3). cbn [bind].
  assert (Hlen : length (st_fields (set_state 2 st3)) = length flines).
  { simpl. rewrite Hf3, Hf2. simpl. rewrite Hf1. apply length_map. }
  rewrite <- Hlen in Hrows.
  destruct (run_rows rows (set_state 2 st3) eq_refl Hrows) as [st4 [H4 [Hs4 _]]].
  rewrite H4. cbn [bind]. rewrite Hs4. reflexivity.
Qed.

Lemma missing_END_OF_DATA_witness :
  parseFileText ([START_OF_FILE] ++ sample_pre ++ [START_OF_FIELDS] ++ sample_fields
                 ++ [END_OF_FIELDS; START_OF_DATA] ++ map row_text sample_rows)
  = Err (PyException (PStr msg_not_graceful)).
Proof. apply missing_END_OF_DATA; vm_compute; reflexivity. Defined.

Lemma In_lstrip (c : ascii) (s : pystr) : In c (lstrip s) -> In c s.
Proof.
  induction s as [|x s IH]; [tauto|]. simpl. destruct (is_space x); [|tauto].
  intros H. right. apply IH, H.
Qed.

Lemma In_strip (c : ascii) (s : pystr) : In c (strip s) -> In c s.
Proof.
  unfold strip. intros H. apply in_rev, In_lstrip, in_rev, In_lstrip in H. exact H.
Qed.

Lemma split_aux_no_sep (sep : ascii) (s cur : pystr) :
  ~ In sep s -> split_aux sep s cur = [rev cur ++ s].
Proof.
  revert cur. induction s as [|c s IH]; intros cur H.
  - simpl. rewrite app_nil_r. reflexivity.
  - simpl. destruct (ascii_dec c sep) as [->|N]; [exfalso; apply H; left; reflexivity|].
    rewrite IH by (intros Hs; apply H; right; exact Hs).
    simpl. rewrite <- app_assoc. reflexivity.
Qed.

Lemma DATARECORD_not_marker (l : pystr) :
  contains DATARECORD l = true ->
  str_eqb l START_OF_FIELDS = false /\ str_eqb l START_OF_DATA = false.
Proof.
  intros H. split; apply not_true_iff_false; intros E; apply str_eqb_true in E;
    subst; discriminate H.
Qed.

(** X16: a preamble line that mentions DATARECORD but has no [=] aborts
    the whole parse with [IndexError] ([line.split('=')[1]]). *)
Theorem DATARECORD_without_count (pre rest : list pystr) (l : pystr) :
  forallb preamble_ok pre = true ->
  contains DATARECORD (strip l) = true -> ~ In "="%char l ->
  parseFileText (START_OF_FILE :: pre ++ l :: rest) = Err IndexError.
Proof.
  intros Hpre Hdr Heq.
  destruct (run_start_preamble pre Hpre) as [st [H [Hs _]]].
  apply (run_abort (START_OF_FILE :: pre) rest st l IndexError H).
  destruct (DATARECORD_not_marker _ Hdr) as [N1 N2].
  unfold step. state_tests Hs. rewrite N1, N2, Hdr.
  unfold split. rewrite split_aux_no_sep by (intros E; apply Heq, In_strip, E).
  reflexivity.
Qed.

Lemma DATARECORD_without_count_witness :
  parseFileText (START_OF_FILE :: sample_pre ++ lit "DATARECORD 2" :: []) = Err IndexError.
Proof.
  apply DATARECORD_without_count; [vm_compute; reflexivity .. |].
  vm_compute. intros H. repeat destruct H as [H|H]; discriminate H || exact H.
Defined.




(** *** Reading back what was parsed *)

Lemma mapM_ext_in {A B} (f g : A -> res B) (l : list A) :
  (forall x, In x l -> f x = g x) -> mapM f l = mapM g l.
Proof.
  induction l as [|x l IH]; intros H; [reflexivity|]. simpl.
  rewrite (H x (or_introl eq_refl)), IH by (intros y Hy; apply H; right; exact Hy).
  reflexivity.
Qed.

Lemma dict_set_fresh (k : pystr) (v : pystr) (d : list (pystr * pystr)) :
  ~ In k (map fst d) -> dict_set str_eqb k v d = d ++ [(k, v)].
Proof.
  induction d as [|[k' v'] d IH]; intros H; [reflexivity|].
  simpl in H |- *. destruct (str_eqb k k') eqn:E.
  - apply str_eqb_true in E. subst. exfalso. apply H. left. reflexivity.
  - rewrite IH by tauto. reflexivity.
Qed.

Lemma fold_dict_set_fresh (l d : list (pystr * pystr)) :
  NoDup (map fst (d ++ l)) ->
  fold_left (fun d kv => dict_set str_eqb (fst kv) (snd kv) d) l d = d ++ l.
Proof.
  revert d. induction l as [|kv l IH]; intros d H; [rewrite app_nil_r; reflexivity|].
  simpl. rewrite dict_set_fresh.
  - replace (d ++ kv :: l) with ((d ++ [(fst kv, snd kv)]) ++ l)
      by (rewrite <- app_assoc, <- surjective_pairing; reflexivity).
    apply IH. rewrite <- app_assoc, <- surjective_pairing. exact H.
  - rewrite map_app in H. simpl in H. apply NoDup_remove_2 in H.
    intros Hin. apply H. apply in_or_app. left. exact Hin.
Qed.

Lemma dict_of_fresh (l : list (pystr * pystr)) :
  NoDup (map fst l) -> dict_of str_eqb l = l.
Proof. intros H. apply (fold_dict_set_fresh l []). exact H. Qed.

Lemma dict_get_all (l : list (pystr * pystr)) :
  NoDup (map fst l) -> mapM (fun k => dict_get str_eqb k l) (map fst l) = Ok (map snd l).
Proof.
  induction l as [|[k v] l IH]; intros H; [reflexivity|].
  simpl in H |- *. inversion H as [|? ? Hk Hl]; subst.
  replace (str_eqb k k) with true by (symmetry; apply str_eqb_true; reflexivity).
  cbn [bind].
  rewrite (mapM_ext_in _ (fun k0 => dict_get str_eqb k0 l)).
  - rewrite IH by exact Hl. reflexivity.
  - intros x Hx. destruct (str_eqb x k) eqn:E; [|reflexivity].
    apply str_eqb_true in E. subst. contradiction.
Qed.

Lemma mkrow_get_all (fs vs : list pystr) :
  NoDup fs -> length vs = length fs ->
  mapM (fun k => dict_get str_eqb k (mkrow fs vs)) fs = Ok vs.
Proof.
  intros Hnd Hl.
  assert (Hf : map fst (combine fs vs) = fs).
  { clear Hnd. revert vs Hl. induction fs as [|f fs IH]; intros [|v vs] Hl;
      try discriminate Hl; [reflexivity|]. simpl. rewrite IH; auto. }
  assert (Hs : map snd (combine fs vs) = vs).
  { clear Hnd Hf. revert vs Hl. induction fs as [|f fs IH]; intros [|v vs] Hl;
      try discriminate Hl; [reflexivity|]. simpl. rewrite IH; auto. }
  unfold mkrow. rewrite dict_of_fresh by (rewrite Hf; exact Hnd).
  transitivity (mapM (fun k => dict_get str_eqb k (combine fs vs)) (map fst (combine fs vs)));
    [rewrite Hf; reflexivity|].
  rewrite dict_get_all by (rewrite Hf; exact Hnd). rewrite Hs. reflexivity.
Qed.

(** X18: reading a parsed well-formed file back through [getDataForFields]
    with all its field names (when no name is declared twice) returns, for
    each row whose identifier passes the checksum, exactly the values of its
    data line, in file order. *)
Theorem getDataForFields_all_fields (lines pre flines : list pystr)
    (rows : list (list pystr * list pystr)) (b : BbgDataFile) :
  same_trimmed lines (bbg_file pre flines rows) ->
  forallb preamble_ok pre = true ->
  forallb field_line_ok flines = true ->
  forallb (row_ok (length flines)) rows = true ->
  NoDup (map strip flines) ->
  BbgDataFile_init lines = Ok b ->
  getDataForFields b (fields b) = Ok (map snd (filter figi_valid rows)).
Proof.
  intros Htr Hpre Hfl Hrows Hnd Hb.
  unfold BbgDataFile_init in Hb. rewrite (parseFileText_same_trimmed _ _ Htr) in Hb.
  rewrite (parse_bbg_file pre flines rows Hpre Hfl Hrows) in Hb. cbn [bind] in Hb.
  injection Hb as <-. unfold getDataForFields. cbn [fields dataList fst snd].
  replace (forallb (fun g => g) (map (fun f => existsb (str_eqb f) (map strip flines))
                                     (map strip flines))) with true.
  2:{ symmetry. apply forallb_forall. intros g Hg. apply in_map_iff in Hg.
      destruct Hg as [f [<- Hf]]. apply existsb_str_eqb, Hf. }
  cbn [negb].
  assert (Hlen : forall mv, In mv (filter figi_valid rows) ->
                 length (snd mv) = length (map strip flines)).
  { intros mv Hmv. apply filter_In in Hmv as [Hmv _].
    rewrite forallb_forall in Hrows. specialize (Hrows mv Hmv). unfold row_ok in Hrows.
    apply andb_true_iff in Hrows as [Hrows _]. apply andb_true_iff in Hrows as [_ Hl].
    apply Nat.eqb_eq in Hl. rewrite length_map. exact Hl. }
  induction (filter figi_valid rows) as [|mv l IH]; [reflexivity|].
  cbn [map mapM]. rewrite mkrow_get_all by (exact Hnd || apply Hlen; left; reflexivity).
  cbn [bind]. rewrite IH by (intros mv' Hmv'; apply Hlen; right; exact Hmv'). reflexivity.
Qed.

Lemma getDataForFields_all_fields_witness :
  getDataForFields sample_file (fields sample_file)
  = Ok (map snd (filter figi_valid sample_rows)).
Proof.
  apply (getDataForFields_all_fields (with_newlines (bbg_file sample_pre sample_fields sample_rows))
           sample_pre sample_fields sample_rows);
    [vm_compute; repeat constructor | vm_compute; reflexivity .. | |].
  - vm_compute. repeat constructor; simpl; intros H; repeat destruct H as [H|H];
      discriminate H || exact H.
  - vm_compute. reflexivity.
Defined.
